(** * EV adoption forecaster: the recursive forecasting loop of [app.py]

    A shallow embedding of the forecasting part of [src/app.py] (the
    single-county loop, lines 63-114, the multi-county comparison,
    lines 147-199, and the two growth summaries, lines 131-139 and 201-229)
    together with the properties of it that the specification states and
    further properties of the code.

    Numeric model.  The script computes with NumPy scalars (64-bit floats and
    integers).  Finite numbers are modelled as exact rationals [Q]: the
    rounding error of the floating-point operations is outside the model.
    The special values are kept where the script can meet them: a value
    returned by the model ([float64]) may be NaN or infinite, and the
    subtraction and the division of the percentage changes give an infinity
    when their result reaches the overflow threshold of the 64-bit floats,
    and NaN or an infinity on a zero divisor.

    Integers.  The rounded predictions are Python integers, and the pandas
    column made of them is a column of 64-bit integers as long as they all
    fit.  The sums over that column are modelled as exact sums: they are
    what the script computes as long as the column, its running totals and
    the stitched totals stay in the range of the 64-bit integers
    ([within_int64]); outside that range pandas wraps around or changes the
    type of the column, which is outside the model.  The statements about
    the values of these sums on arbitrary runs carry [within_int64] as a
    hypothesis; the two paths of the script form these sums by the same
    operations. *)

From Stdlib Require Import String Ascii Bool ZArith QArith Qround Lia Lqa List
  Permutation.
Import ListNotations.

Local Open Scope Q_scope.

(** ** Python values and exceptions *)

(** An exception is identified by the name of its class. *)
Definition exn := string.

Definition IndexError : exn := "IndexError"%string.
Definition KeyError : exn := "KeyError"%string.
Definition ValueError : exn := "ValueError"%string.
Definition OverflowError : exn := "OverflowError"%string.

(** The result of evaluating an expression that may raise. *)
Inductive result (A : Type) : Type :=
| Ok (a : A)
| Raise (e : exn).
Arguments Ok {A} a.
Arguments Raise {A} e.

Definition rbind {A B} (r : result A) (k : A -> result B) : result B :=
  match r with
  | Ok a => k a
  | Raise e => Raise e
  end.

Definition rmap {A B} (f : A -> B) (r : result A) : result B :=
  rbind r (fun a => Ok (f a)).

Notation "x <- e ;; k" := (rbind e (fun x => k))
  (at level 61, e at next level, right associativity).

(** [for x in xs: ys.append(f(x))], where [f] may raise: the first
    exception ends the loop. *)
Fixpoint traverse {A B} (f : A -> result B) (xs : list A) : result (list B) :=
  match xs with
  | [] => Ok []
  | x :: xs' => y <- f x ;; ys <- traverse f xs' ;; Ok (y :: ys)
  end.

(** The outcome of running statements on the loop variables [S]: either
    they ran to the end, or an exception left them, with the values the
    variables had at that moment. *)
Inductive outcome (S : Type) : Type :=
| Completed (s : S)
| Aborted (e : exn) (s : S).
Arguments Completed {S} s.
Arguments Aborted {S} e s.

(** A 64-bit float: a finite number or one of the special values. *)
Inductive float64 : Type :=
| Finite (q : Q)
| NaN
| PosInf
| NegInf.

Definition is_finite (x : float64) : bool :=
  match x with
  | Finite _ => true
  | _ => false
  end.

(** The magnitude from which the result of a floating-point operation is an
    infinity: halfway between the largest 64-bit float and [2 ^ 1024]. *)
Definition float64_overflow : Q := inject_Z (2 ^ 1024 - 2 ^ 970).

(** The 64-bit float of the exact result [q] of an operation on floats. *)
Definition to_float64 (q : Q) : float64 :=
  if Qle_bool float64_overflow q then PosInf
  else if Qle_bool q (- float64_overflow) then NegInf
  else Finite q.

(** NumPy's [x - y] of two finite scalars, as floats (the difference of two
    historical counts, which are integers, is far below the threshold). *)
Definition np_sub (x y : Q) : float64 := to_float64 (x - y).

(** NumPy's true division [x / y] by a finite scalar: a zero divisor
    gives NaN or an infinity (with a warning), not an exception. *)
Definition np_div (x : float64) (y : Q) : float64 :=
  match x with
  | Finite a =>
      if Qeq_bool y 0 then
        if Qeq_bool a 0 then NaN
        else if Qle_bool 0 a then PosInf else NegInf
      else to_float64 (a / y)
  | NaN => NaN
  | PosInf => if Qle_bool 0 y then PosInf else NegInf
  | NegInf => if Qle_bool 0 y then NegInf else PosInf
  end.

(** [round(x)] on a finite float: round half to even, to an [int].  On NaN
    [round] raises [ValueError] and on an infinity [OverflowError]. *)
Definition round_half_even (q : Q) : Z :=
  let f := Qfloor q in
  let d := q - inject_Z f in
  if Qle_bool d (1 # 2) then
    if Qeq_bool d (1 # 2) then (if Z.even f then f else f + 1)%Z else f
  else (f + 1)%Z.

(** ** Python lists *)

(** [l[-n:]]: the last [n] elements, the whole list when it is shorter. *)
Definition lastn {A} (n : nat) (l : list A) : list A :=
  skipn (length l - n) l.

(** [l[-k]] for [k >= 1]: raises [IndexError] out of range. *)
Definition neg_index {A} (l : list A) (k : nat) : result A :=
  if (k <=? length l)%nat then
    match nth_error l (length l - k) with
    | Some a => Ok a
    | None => Raise IndexError
    end
  else Raise IndexError.

Definition Qsum (l : list Q) : Q := fold_right Qplus 0 l.

(** [np.cumsum(l)] and [series.cumsum()]: the running totals, starting
    from [acc]. *)
Fixpoint cumsum_from (acc : Q) (l : list Q) : list Q :=
  match l with
  | [] => []
  | x :: l' => (acc + x) :: cumsum_from (acc + x) l'
  end.

Definition cumsum (l : list Q) : list Q := cumsum_from 0 l.

Fixpoint Zcumsum_from (acc : Z) (l : list Z) : list Z :=
  match l with
  | [] => []
  | x :: l' => (acc + x)%Z :: Zcumsum_from (acc + x)%Z l'
  end.

Definition Zcumsum (l : list Z) : list Z := Zcumsum_from 0%Z l.

(** [np.mean(l)] *)
Definition np_mean (l : list Q) : Q :=
  Qsum l / inject_Z (Z.of_nat (length l)).

(** [range(n)], as numbers. *)
Definition range (n : nat) : list Q :=
  map (fun k => inject_Z (Z.of_nat k)) (seq 0 n).

(** ** Least squares *)

Definition dot (xs ys : list Q) : Q :=
  Qsum (map (fun p => fst p * snd p) (combine xs ys)).

(** [np.polyfit(xs, ys, 1)]: the coefficients [(slope, intercept)] of the
    degree-1 least-squares fit, by the normal equations. *)
Definition polyfit1 (xs ys : list Q) : Q * Q :=
  let n := inject_Z (Z.of_nat (length xs)) in
  let sx := Qsum xs in
  let sy := Qsum ys in
  let sxx := dot xs xs in
  let sxy := dot xs ys in
  let slope := (n * sxy - sx * sy) / (n * sxx - sx * sx) in
  (slope, (sy - slope * sx) / n).

(** The sum of squared residuals of the line [a * x + b]. *)
Definition sse (xs ys : list Q) (a b : Q) : Q :=
  Qsum (map (fun p => (snd p - (a * fst p + b)) * (snd p - (a * fst p + b)))
            (combine xs ys)).

(** ** Dates *)

(** A [pd.Timestamp] at midnight. *)
Record Timestamp : Type := mkTimestamp {
  year : Z;
  month : Z;
  day : Z
}.

Definition is_leap (y : Z) : bool :=
  ((y mod 4 =? 0) && negb (y mod 100 =? 0) || (y mod 400 =? 0))%Z.

Definition days_in_month (y m : Z) : Z :=
  if (m =? 2)%Z then (if is_leap y then 29 else 28)%Z
  else if ((m =? 4) || (m =? 6) || (m =? 9) || (m =? 11))%Z then 30%Z
  else 31%Z.

(** The number of the calendar month of a date, counted from year 0. *)
Definition month_index (d : Timestamp) : Z :=
  (year d * 12 + (month d - 1))%Z.

(** [d + pd.DateOffset(months=i)]: the month moves by [i], the day is kept
    unless the new month is shorter. *)
Definition add_months (d : Timestamp) (i : Z) : Timestamp :=
  let idx := (month_index d + i)%Z in
  let y := (idx / 12)%Z in
  let m := (idx mod 12 + 1)%Z in
  mkTimestamp y m (Z.min (day d) (days_in_month y m)).

(** The order of dates. *)
Definition date_ltb (a b : Timestamp) : bool :=
  ((year a <? year b)
   || ((year a =? year b) && ((month a <? month b)
       || ((month a =? month b) && (day a <? day b)))))%Z.

Definition date_leb (a b : Timestamp) : bool := negb (date_ltb b a).

Definition date_max (a b : Timestamp) : Timestamp :=
  if date_ltb a b then b else a.

(** ** The data frame *)

(** A row of [preprocessed_ev_data.csv], with the columns the forecast
    reads: 'County', 'Date', 'Electric Vehicle (EV) Total',
    'months_since_start' and 'county_encoded'. *)
Record Row : Type := mkRow {
  County : string;
  Date : Timestamp;
  EV_Total : Q;
  Months_since_start : Z;
  County_encoded : Z
}.

Definition DataFrame := list Row.

Fixpoint insert_by_date (r : Row) (l : DataFrame) : DataFrame :=
  match l with
  | [] => [r]
  | x :: l' =>
      if date_leb (Date r) (Date x) then r :: x :: l'
      else x :: insert_by_date r l'
  end.

(** [frame.sort_values("Date")]: ascending.  Rows of one date keep their
    order here; pandas promises no order for them, the histories have one
    row per date, and no statement below depends on that order. *)
Definition sort_values_Date (l : DataFrame) : DataFrame :=
  fold_right insert_by_date [] l.

(** [df[df['County'] == county].sort_values("Date")] *)
Definition select (df : DataFrame) (county : string) : DataFrame :=
  sort_values_Date (filter (fun r => String.eqb (County r) county) df).

(** [column.max()] of a frame whose first row is [r0]. *)
Definition col_max (r0 : Z) (rest : list Z) : Z := fold_left Z.max rest r0.

Definition Date_max (r0 : Timestamp) (rest : list Timestamp) : Timestamp :=
  fold_left date_max rest r0.

(** The row of features handed to the model at one step (the dict [row]). *)
Record FeatureRow : Type := mkFeatureRow {
  row_months_since_start : Z;
  row_county_encoded : Z;
  ev_total_lag1 : Q;
  ev_total_lag2 : Q;
  ev_total_lag3 : Q;
  ev_total_roll_mean_3 : Q;
  ev_total_pct_change_1 : float64;
  ev_total_pct_change_3 : float64;
  row_ev_growth_slope : Q
}.

(** An entry of [future_rows]: 'Date' and 'Predicted EV Total'. *)
Record FutureRow : Type := mkFutureRow {
  fr_Date : Timestamp;
  Predicted_EV_Total : Z
}.

(** A row of the forecast frame after the 'Cumulative EV' column is added. *)
Record ForecastRow : Type := mkForecastRow {
  fc_Date : Timestamp;
  fc_Predicted_EV_Total : Z;
  fc_Cumulative_EV : Q
}.

(** The model loaded from [forecasting_ev_model.pkl]:
    [model.predict(pd.DataFrame([row]))[0]] either raises or returns a
    float. *)
Definition Model := FeatureRow -> result float64.

(** [(a - b) / b if b != 0 else 0] *)
Definition pct_change (a b : Q) : float64 :=
  if negb (Qeq_bool b 0) then np_div (np_sub a b) b else Finite 0.

(** [np.polyfit(range(6), c[-6:], 1)[0] if len(c) >= 6 else 0] *)
Definition growth_slope (c : list Q) : Q :=
  if (6 <=? length c)%nat then fst (polyfit1 (range 6) (lastn 6 c)) else 0.

(** [frame['Predicted EV Total']] of the frame built from [rows]: the frame
    of an empty list has no such column. *)
Definition column_Predicted_EV_Total (rows : list FutureRow) : result (list Z) :=
  match rows with
  | [] => Raise KeyError
  | _ => Ok (map Predicted_EV_Total rows)
  end.

(** The frame built from [rows] with the new column 'Cumulative EV'. *)
Definition with_Cumulative_EV (rows : list FutureRow) (c : list Q)
  : list ForecastRow :=
  map (fun p => mkForecastRow (fr_Date (fst p)) (Predicted_EV_Total (fst p)) (snd p))
      (combine rows c).

(** ** The single-county forecast (lines 63-114) *)

Module Single.

(** The variables the loop updates. *)
Record vars : Type := mkVars {
  months_since_start : Z;
  historical_ev : list Q;
  cumulative_ev : list Q;
  future_rows : list FutureRow
}.

(** What the section hands to the plot. *)
Record output : Type := mkOutput {
  forecast_df : list ForecastRow;
  combined : list (Timestamp * Q * string)
}.

Section Loop.

Variable model : Model.
(** The rounding of a finite prediction; the script's is
    [round_half_even]. *)
Variable round : Q -> Z.
Variable county_code : Z.
Variable latest_date : Timestamp.

(** Lines 77-93: the features of one step. *)
Definition engineer (months_since_start : Z) (historical_ev cumulative_ev : list Q)
  : result FeatureRow :=
  lag1 <- neg_index historical_ev 1 ;;
  lag2 <- neg_index historical_ev 2 ;;
  lag3 <- neg_index historical_ev 3 ;;
  let roll_mean := np_mean [lag1; lag2; lag3] in
  let pct_change_1 := pct_change lag1 lag2 in
  let pct_change_3 := pct_change lag1 lag3 in
  let ev_growth_slope := growth_slope cumulative_ev in
  Ok (mkFeatureRow months_since_start county_code lag1 lag2 lag3 roll_mean
        pct_change_1 pct_change_3 ev_growth_slope).

(** Lines 75-100: one iteration, for the loop index [i]. *)
Definition body (i : nat) (v : vars) : outcome vars :=
  let forecast_date := add_months latest_date (Z.of_nat i) in
  let months_since_start := (months_since_start v + 1)%Z in
  let v1 := mkVars months_since_start (historical_ev v) (cumulative_ev v)
              (future_rows v) in
  match engineer months_since_start (historical_ev v) (cumulative_ev v) with
  | Raise e => Aborted e v1
  | Ok row =>
      match model row with
      | Raise e => Aborted e v1
      | Ok NaN => Aborted ValueError v1
      | Ok PosInf | Ok NegInf => Aborted OverflowError v1
      | Ok (Finite pred) =>
          let future_rows :=
            future_rows v ++ [mkFutureRow forecast_date (round pred)] in
          let historical_ev := lastn 6 (historical_ev v ++ [pred]) in
          match neg_index (cumulative_ev v) 1 with
          | Raise e =>
              Aborted e (mkVars months_since_start historical_ev
                           (cumulative_ev v) future_rows)
          | Ok c =>
              let cumulative_ev := lastn 6 (cumulative_ev v ++ [c + pred]) in
              Completed (mkVars months_since_start historical_ev
                           cumulative_ev future_rows)
          end
      end
  end.

(** [for i in range(i, i + n)]: the iterations left, from index [i]. *)
Fixpoint loop (n : nat) (i : nat) (v : vars) : outcome vars :=
  match n with
  | O => Completed v
  | S n' =>
      match body i v with
      | Completed v' => loop n' (S i) v'
      | Aborted e v' => Aborted e v'
      end
  end.

(** The rows handed to the model and its answers, step by step, until the
    loop ends or an exception leaves it. *)
Fixpoint trace (n : nat) (i : nat) (v : vars) : list (FeatureRow * result float64) :=
  match n with
  | O => []
  | S n' =>
      match engineer (months_since_start v + 1)%Z (historical_ev v) (cumulative_ev v) with
      | Raise _ => []
      | Ok row =>
          (row, model row) ::
          match body i v with
          | Completed v' => trace n' (S i) v'
          | Aborted _ _ => []
          end
      end
  end.

End Loop.

(** Lines 67-72: the variables before the first iteration, for a frame
    whose first row is [r0]. *)
Definition seed (r0 : Row) (rest : DataFrame) : vars :=
  let historical_ev := lastn 6 (map EV_Total (r0 :: rest)) in
  let cumulative_ev := cumsum historical_ev in
  let months_since_start :=
    col_max (Months_since_start r0) (map Months_since_start rest) in
  mkVars months_since_start historical_ev cumulative_ev [].

(** Lines 64-114 on the county's frame [county_df].  On an empty frame
    [county_df['county_encoded'].iloc[0]] raises. *)
Definition forecast (model : Model) (round : Q -> Z) (forecast_horizon : nat)
    (county_df : DataFrame) : result output :=
  match county_df with
  | [] => Raise IndexError
  | r0 :: rest =>
      let county_code := County_encoded r0 in
      let latest_date := Date_max (Date r0) (map Date rest) in
      match loop model round county_code latest_date forecast_horizon 1
              (seed r0 rest) with
      | Aborted e _ => Raise e
      | Completed v =>
          let historical_cum := cumsum (map EV_Total county_df) in
          predicted <- column_Predicted_EV_Total (future_rows v) ;;
          last <- neg_index historical_cum 1 ;;
          let forecast_df :=
            with_Cumulative_EV (future_rows v)
              (map (fun z => inject_Z z + last) (Zcumsum predicted)) in
          Ok (mkOutput forecast_df
                (map (fun p => (Date (fst p), snd p, "Historical"%string))
                     (combine county_df historical_cum)
                 ++ map (fun r => (fc_Date r, fc_Cumulative_EV r, "Forecast"%string))
                        forecast_df))
      end
  end.

(** [forecast_horizon = 36] *)
Definition forecast_horizon : nat := 36.

(** Lines 59-114: the section of the script for the selected county.
    [None]: the county is not in the data, a warning is shown and the
    script stops. *)
Definition run (model : Model) (df : DataFrame) (county : string)
  : result (option output) :=
  if negb (existsb (String.eqb county) (map County df)) then Ok None
  else rmap Some (forecast model round_half_even forecast_horizon (select df county)).

End Single.

(** The finite answers in a trace: the unrounded predictions. *)
Fixpoint predictions (t : list (FeatureRow * result float64)) : list Q :=
  match t with
  | [] => []
  | (_, Ok (Finite p)) :: t' => p :: predictions t'
  | _ :: t' => predictions t'
  end.

(** ** The multi-county comparison (lines 147-199) *)

Module Multi.

Record vars : Type := mkVars {
  months_since : Z;
  hist_ev : list Q;
  cum_ev : list Q;
  future_rows_cty : list FutureRow
}.

(** What one iteration of the loop over the counties computes: the forecast
    frame and the frame appended to [comparison_data]. *)
Record output : Type := mkOutput {
  fc_df : list ForecastRow;
  combined_cty : list (Timestamp * Q * string)
}.

Section Loop.

Variable model : Model.
Variable round : Q -> Z.
Variable cty_code : Z.
Variable last_date : Timestamp.

(** Lines 162-187: one iteration of the inner loop. *)
Definition body (i : nat) (v : vars) : outcome vars :=
  let forecast_date := add_months last_date (Z.of_nat i) in
  let months_since := (months_since v + 1)%Z in
  let v1 := mkVars months_since (hist_ev v) (cum_ev v) (future_rows_cty v) in
  match neg_index (hist_ev v) 1 with
  | Raise e => Aborted e v1
  | Ok lag1 =>
  match neg_index (hist_ev v) 2 with
  | Raise e => Aborted e v1
  | Ok lag2 =>
  match neg_index (hist_ev v) 3 with
  | Raise e => Aborted e v1
  | Ok lag3 =>
      let roll_mean := np_mean [lag1; lag2; lag3] in
      let pct_change_1 :=
        if negb (Qeq_bool lag2 0) then np_div (np_sub lag1 lag2) lag2 else Finite 0 in
      let pct_change_3 :=
        if negb (Qeq_bool lag3 0) then np_div (np_sub lag1 lag3) lag3 else Finite 0 in
      let ev_slope :=
        if (6 <=? length (cum_ev v))%nat
        then fst (polyfit1 (range 6) (lastn 6 (cum_ev v))) else 0 in
      let row := mkFeatureRow months_since cty_code lag1 lag2 lag3 roll_mean
                   pct_change_1 pct_change_3 ev_slope in
      match model row with
      | Raise e => Aborted e v1
      | Ok NaN => Aborted ValueError v1
      | Ok PosInf | Ok NegInf => Aborted OverflowError v1
      | Ok (Finite pred) =>
          let future_rows_cty :=
            future_rows_cty v ++ [mkFutureRow forecast_date (round pred)] in
          let hist_ev := lastn 6 (hist_ev v ++ [pred]) in
          match neg_index (cum_ev v) 1 with
          | Raise e =>
              Aborted e (mkVars months_since hist_ev (cum_ev v) future_rows_cty)
          | Ok c =>
              let cum_ev := lastn 6 (cum_ev v ++ [c + pred]) in
              Completed (mkVars months_since hist_ev cum_ev future_rows_cty)
          end
      end
  end end end.

Fixpoint loop (n : nat) (i : nat) (v : vars) : outcome vars :=
  match n with
  | O => Completed v
  | S n' =>
      match body i v with
      | Completed v' => loop n' (S i) v'
      | Aborted e v' => Aborted e v'
      end
  end.

End Loop.

(** Lines 153-199: the iteration of the outer loop for the county [cty].
    On an empty frame [cty_df['county_encoded'].iloc[0]] raises. *)
Definition region (model : Model) (round : Q -> Z) (forecast_horizon : nat)
    (df : DataFrame) (cty : string) : result output :=
  let cty_df := select df cty in
  match cty_df with
  | [] => Raise IndexError
  | r0 :: rest =>
      let cty_code := County_encoded r0 in
      let hist_ev := lastn 6 (map EV_Total cty_df) in
      let cum_ev := cumsum hist_ev in
      let months_since :=
        col_max (Months_since_start r0) (map Months_since_start rest) in
      let last_date := Date_max (Date r0) (map Date rest) in
      match loop model round cty_code last_date forecast_horizon 1
              (mkVars months_since hist_ev cum_ev []) with
      | Aborted e _ => Raise e
      | Completed v =>
          let hist_cum := cumsum (map EV_Total cty_df) in
          predicted <- column_Predicted_EV_Total (future_rows_cty v) ;;
          last <- neg_index hist_cum 1 ;;
          let fc_df :=
            with_Cumulative_EV (future_rows_cty v)
              (map (fun z => inject_Z z + last) (Zcumsum predicted)) in
          Ok (mkOutput fc_df
                (map (fun p => (Date (fst p), snd p, cty)) (combine cty_df hist_cum)
                 ++ map (fun r => (fc_Date r, fc_Cumulative_EV r, cty)) fc_df))
      end
  end.

(** Lines 147-199.  [None]: more than 3 counties are selected, an error
    message is shown and nothing is computed. *)
Definition comparison (model : Model) (df : DataFrame)
    (multi_counties : list string) : result (option (list output)) :=
  if (3 <? length multi_counties)%nat then Ok None
  else rmap Some
         (traverse (region model round_half_even Single.forecast_horizon df)
            multi_counties).

End Multi.

(** The names the specification gives to the failures of the forecast; the
    script raises whatever Python raises. *)
Definition InsufficientHistory : exn := "InsufficientHistory"%string.
Definition PredictorFailure : exn := "PredictorFailure"%string.

(** The exception a step ends with when the model's answer is not a finite
    number: the model's own, or the one [round] raises. *)
Definition failure (r : result float64) : option exn :=
  match r with
  | Raise e => Some e
  | Ok NaN => Some ValueError
  | Ok PosInf | Ok NegInf => Some OverflowError
  | Ok (Finite _) => None
  end.

(** The part of the loop variables the features are computed from. *)
Definition chain (v : Single.vars) : Z * list Q * list Q :=
  (Single.months_since_start v, Single.historical_ev v, Single.cumulative_ev v).

Definition outcome_map {S T} (f : S -> T) (o : outcome S) : outcome T :=
  match o with
  | Completed s => Completed (f s)
  | Aborted e s => Aborted e (f s)
  end.

(** A frame in ascending order of 'Date'. *)
Fixpoint sorted_by_date (l : DataFrame) : bool :=
  match l with
  | [] => true
  | r :: l' =>
      match l' with
      | [] => true
      | r' :: _ => date_leb (Date r) (Date r') && sorted_by_date l'
      end
  end.

(** ** Notions used to state the properties *)

(** The variables after a step that went through, with the prediction [p]
    and the previous total [c]. *)
Definition advance (round : Q -> Z) (latest_date : Timestamp) (i : nat)
    (v : Single.vars) (p c : Q) : Single.vars :=
  Single.mkVars (Single.months_since_start v + 1)%Z
    (lastn 6 (Single.historical_ev v ++ [p]))
    (lastn 6 (Single.cumulative_ev v ++ [c + p]))
    (Single.future_rows v
     ++ [mkFutureRow (add_months latest_date (Z.of_nat i)) (round p)]).

(** The states from which every step finds its lags and its previous
    total. *)
Definition ready (v : Single.vars) : Prop :=
  (3 <= length (Single.historical_ev v))%nat
  /\ (1 <= length (Single.cumulative_ev v))%nat.

(** The states whose windows hold at most 6 values. *)
Definition trimmed (v : Single.vars) : Prop :=
  (length (Single.historical_ev v) <= 6)%nat
  /\ (length (Single.cumulative_ev v) <= 6)%nat.

(** The rows recorded by [k] steps that went through, from the
    predictions. *)
Definition recorded (round : Q -> Z) (latest_date : Timestamp) (i k : nat)
    (preds : list Q) : list FutureRow :=
  map (fun jp => mkFutureRow (add_months latest_date (Z.of_nat (fst jp)))
                   (round (snd jp)))
      (combine (seq i k) preds).

(** The frame the forecast builds once the loop has run to its end. *)
Definition stitched (v : Single.vars) (last : Q) : list ForecastRow :=
  with_Cumulative_EV (Single.future_rows v)
    (map (fun z => inject_Z z + last)
       (Zcumsum (map Predicted_EV_Total (Single.future_rows v)))).

(** The variables of the inner loop of the comparison, read as those of the
    single-county loop. *)
Definition as_single (v : Multi.vars) : Single.vars :=
  Single.mkVars (Multi.months_since v) (Multi.hist_ev v) (Multi.cum_ev v)
    (Multi.future_rows_cty v).

(** The result of the single-county forecast, read as the result of one
    iteration of the comparison for the county [cty]: the same forecast
    frame, and the combined series labelled with the county. *)
Definition as_region (cty : string) (out : Single.output) : Multi.output :=
  Multi.mkOutput (Single.forecast_df out)
    (map (fun x => (fst x, cty)) (Single.combined out)).

(** ** Sample data *)

Definition history3 : DataFrame :=
  [mkRow "A" (mkTimestamp 2024 1 31) 100 0 7;
   mkRow "A" (mkTimestamp 2024 2 29) 120 1 7;
   mkRow "A" (mkTimestamp 2024 3 31) 150 2 7].

(** A model that gives the same answer for every row. *)
Definition constant_model (x : result float64) : Model := fun _ => x.

Definition history2 : DataFrame :=
  [mkRow "A" (mkTimestamp 2024 1 31) 100 0 7;
   mkRow "A" (mkTimestamp 2024 2 29) 120 1 7].

Definition history7 : DataFrame :=
  map (fun k => mkRow "A" (add_months (mkTimestamp 2024 1 31) k) 1 k 7)
      [0; 1; 2; 3; 4; 5; 6]%Z.

(** A model that answers the smallest positive 64-bit float, 5e-324, at the
    period index 3 and 1 everywhere else. *)
Definition tiny_then_one : Model :=
  fun row =>
    if (row_months_since_start row =? 3)%Z then Ok (Finite (1 # 2 ^ 1074))
    else Ok (Finite 1).

Definition history_flat : DataFrame :=
  [mkRow "A" (mkTimestamp 2024 1 31) 0 0 7;
   mkRow "A" (mkTimestamp 2024 2 29) 0 1 7;
   mkRow "A" (mkTimestamp 2024 3 31) 5 2 7].

Definition history6 : DataFrame :=
  [mkRow "A" (mkTimestamp 2024 1 31) 1 0 7;
   mkRow "A" (mkTimestamp 2024 2 29) 3 1 7;
   mkRow "A" (mkTimestamp 2024 3 31) 5 2 7;
   mkRow "A" (mkTimestamp 2024 4 30) 7 3 7;
   mkRow "A" (mkTimestamp 2024 5 31) 9 4 7;
   mkRow "A" (mkTimestamp 2024 6 30) 12 5 7].

(** A history that ends on the last day of January. *)
Definition history_jan : DataFrame :=
  [mkRow "A" (mkTimestamp 2023 11 30) 100 0 7;
   mkRow "A" (mkTimestamp 2023 12 31) 120 1 7;
   mkRow "A" (mkTimestamp 2024 1 31) 150 2 7].

(** Two rows of a county with a short history. *)
Definition history_short : DataFrame :=
  [mkRow "Z" (mkTimestamp 2024 2 29) 4 1 9;
   mkRow "Z" (mkTimestamp 2024 3 31) 6 2 9].

Definition four_counties : DataFrame :=
  flat_map (fun cty =>
              [mkRow cty (mkTimestamp 2024 1 31) 100 0 7;
               mkRow cty (mkTimestamp 2024 2 29) 120 1 7;
               mkRow cty (mkTimestamp 2024 3 31) 150 2 7])
    ["A"; "B"; "C"; "D"]%string.

(** ** The range of the 64-bit integers *)

Definition int64_min : Z := (- 2 ^ 63)%Z.
Definition int64_max : Z := (2 ^ 63 - 1)%Z.

Definition in_int64 (z : Z) : bool :=
  ((int64_min <=? z) && (z <=? int64_max))%Z.

Definition Q_in_int64 (q : Q) : bool :=
  Qle_bool (inject_Z int64_min) q && Qle_bool q (inject_Z int64_max).

(** The runs on which the exact sums of the model are the sums of the
    script: the historical values and their running totals (lines 105 and
    190), the rounded predictions, their running totals and the stitched
    totals (lines 109 and 192) all lie in the range of the 64-bit integers,
    so that the column of the predictions is a column of 64-bit integers and
    no sum wraps around. *)
Definition within_int64 (county_df : DataFrame) (forecast_df : list ForecastRow)
  : bool :=
  forallb Q_in_int64 (map EV_Total county_df)
  && forallb Q_in_int64 (cumsum (map EV_Total county_df))
  && forallb in_int64 (map fc_Predicted_EV_Total forecast_df)
  && forallb in_int64 (Zcumsum (map fc_Predicted_EV_Total forecast_df))
  && forallb Q_in_int64 (map fc_Cumulative_EV forecast_df).

(** The exact results below the overflow threshold of the 64-bit floats. *)
Definition below_float64_overflow (q : Q) : Prop :=
  - float64_overflow < q < float64_overflow.

(** ** The growth summaries (lines 131-139 and 201-229) *)

(** [x > 0] *)
Definition Qpos (x : Q) : bool := negb (Qle_bool x 0).

(** [series.iloc[k]] for an integer [k]: a negative [k] counts from the end;
    out of range it raises. *)
Definition iloc {A} (l : list A) (k : Z) : result A :=
  let n := Z.of_nat (length l) in
  if ((k <? - n) || (n <=? k))%Z then Raise IndexError
  else
    match nth_error l (Z.to_nat (if (k <? 0)%Z then k + n else k)) with
    | Some a => Ok a
    | None => Raise IndexError
    end.

(** What the summary of the single-county forecast shows: the success
    message with the trend (the word, without the symbol that follows it)
    and the growth in percent (which the message prints with two decimals),
    or the warning. *)
Inductive message : Type :=
| Success (trend : string) (growth_pct : Q)
| Warning.

(** Lines 131-139, for a forecast within the range of the 64-bit integers
    ([within_int64]); beyond it the totals are not those of the script, and
    on a total that is a Python integer too large for a 64-bit integer the
    subtraction of line 135 raises. *)
Definition forecast_summary (county_df : DataFrame) (out : Single.output)
  : result message :=
  hist_total <- neg_index (cumsum (map EV_Total county_df)) 1 ;;
  forecast_total <- neg_index (map fc_Cumulative_EV (Single.forecast_df out)) 1 ;;
  if Qpos hist_total then
    let growth_pct := ((forecast_total - hist_total) / hist_total) * 100 in
    let trend := if Qpos growth_pct then "increase"%string else "decrease"%string in
    Ok (Success trend growth_pct)
  else Ok Warning.

(** Lines 64-139 on the county's frame: the forecast and its summary. *)
Definition forecast_and_summary (model : Model) (round : Q -> Z)
    (forecast_horizon : nat) (county_df : DataFrame) : result message :=
  out <- Single.forecast model round forecast_horizon county_df ;;
  forecast_summary county_df out.

(** Lines 220-227: the entry of the growth summary for the county [cty],
    read from the concatenated frame [comp_df]; [None] stands for 'N/A'. *)
Definition growth_entry (forecast_horizon : nat)
    (comp_df : list (Timestamp * Q * string)) (cty : string)
  : result (string * option Q) :=
  let cty_df := filter (fun x => String.eqb (snd x) cty) comp_df in
  let Cumulative_EV := map (fun x => snd (fst x)) cty_df in
  hist_val <- iloc Cumulative_EV
                (Z.of_nat (length cty_df) - Z.of_nat forecast_horizon - 1) ;;
  fore_val <- neg_index Cumulative_EV 1 ;;
  if Qpos hist_val then
    let growth := ((fore_val - hist_val) / hist_val) * 100 in
    Ok (cty, Some growth)
  else Ok (cty, None).

(** Lines 201-229, after the comparison has produced [comparison_data]:
    nothing is shown when the list is empty. *)
Definition growth_summary (forecast_horizon : nat) (multi_counties : list string)
    (comparison_data : list (list (Timestamp * Q * string)))
  : result (option (list (string * option Q))) :=
  match comparison_data with
  | [] => Ok None
  | _ =>
      let comp_df := concat comparison_data in
      rmap Some (traverse (growth_entry forecast_horizon comp_df) multi_counties)
  end.

(** The growth the summary of the single-county forecast shows for a
    county, [None] when it shows the warning. *)
Definition single_growth (model : Model) (round : Q -> Z) (forecast_horizon : nat)
    (df : DataFrame) (cty : string) : result (string * option Q) :=
  m <- forecast_and_summary model round forecast_horizon (select df cty) ;;
  Ok (cty, match m with
           | Success _ growth_pct => Some growth_pct
           | Warning => None
           end).

(** The sum of a column of integers. *)
Definition Zsum (l : list Z) : Z := fold_right Z.add 0%Z l.

(** A calendar date. *)
Definition valid_date (d : Timestamp) : Prop :=
  (1 <= month d <= 12)%Z /\ (1 <= day d <= days_in_month (year d) (month d))%Z.

(** * Properties *)

(** ** Lists *)

Section ListFacts.

Context {A : Type}.
Implicit Types (l : list A) (n k : nat).

Lemma lastn_length n l : length (lastn n l) = Nat.min n (length l).
Proof. unfold lastn. rewrite length_skipn. lia. Qed.

Lemma lastn_length_le n l : (length (lastn n l) <= n)%nat.
Proof. rewrite lastn_length. lia. Qed.

Lemma lastn_all n l : (length l <= n)%nat -> lastn n l = l.
Proof.
  intros H. unfold lastn.
  replace (length l - n)%nat with 0%nat by lia. reflexivity.
Qed.

Lemma lastn_snoc n l x : lastn (S n) (l ++ [x]) = lastn n l ++ [x].
Proof.
  unfold lastn. rewrite length_app. change (length [x]) with 1%nat.
  replace (length l + 1 - S n)%nat with (length l - n)%nat by lia.
  rewrite skipn_app.
  replace (length l - n - length l)%nat with 0%nat by lia.
  reflexivity.
Qed.

Lemma neg_index_snoc l x : neg_index (l ++ [x]) 1 = Ok x.
Proof.
  unfold neg_index. rewrite length_app. change (length [x]) with 1%nat.
  destruct (Nat.leb_spec 1 (length l + 1)); [|lia].
  replace (length l + 1 - 1)%nat with (length l) by lia.
  rewrite nth_error_app2 by lia. rewrite Nat.sub_diag. reflexivity.
Qed.

Lemma neg_index_short l k : (length l < k)%nat -> neg_index l k = Raise IndexError.
Proof.
  intros H. unfold neg_index.
  replace (k <=? length l)%nat with false by (symmetry; apply Nat.leb_gt; lia).
  reflexivity.
Qed.

Lemma neg_index_in_range l k :
  (1 <= k <= length l)%nat -> exists a, neg_index l k = Ok a.
Proof.
  intros H. unfold neg_index.
  replace (k <=? length l)%nat with true by (symmetry; apply Nat.leb_le; lia).
  destruct (nth_error l (length l - k)) as [a|] eqn:E.
  - now exists a.
  - apply nth_error_None in E. lia.
Qed.

Lemma neg_index_raises l k e : neg_index l k = Raise e -> e = IndexError.
Proof.
  unfold neg_index.
  destruct (k <=? length l)%nat; [destruct (nth_error l (length l - k))|];
    congruence.
Qed.

(** The last element of a trimmed window is the element just appended. *)
Lemma neg_index_lastn_snoc n l x : neg_index (lastn (S n) (l ++ [x])) 1 = Ok x.
Proof. rewrite lastn_snoc. apply neg_index_snoc. Qed.

End ListFacts.

Lemma cumsum_from_length acc l : length (cumsum_from acc l) = length l.
Proof. revert acc. induction l as [|x l IH]; intros acc; simpl; [|rewrite IH]; reflexivity. Qed.

Lemma cumsum_from_snoc acc l x :
  exists c, cumsum_from acc (l ++ [x]) = cumsum_from acc l ++ [c]
            /\ c == acc + Qsum (l ++ [x]).
Proof.
  revert acc. induction l as [|y l IH]; intros acc; simpl.
  - exists (acc + x). split; [reflexivity|]. unfold Qsum. simpl. ring.
  - destruct (IH (acc + y)) as (c & E & Hc). exists c. split.
    + now rewrite E.
    + rewrite Hc. unfold Qsum. simpl. ring.
Qed.

(** The last running total is the total. *)
Lemma cumsum_last l c : neg_index (cumsum l) 1 = Ok c -> c == Qsum l.
Proof.
  destruct (rev l) as [|x r] eqn:E.
  - apply (f_equal (@rev Q)) in E. rewrite rev_involutive in E. subst l.
    discriminate.
  - apply (f_equal (@rev Q)) in E. rewrite rev_involutive in E. simpl in E.
    subst l. unfold cumsum.
    destruct (cumsum_from_snoc 0 (rev r) x) as (c' & E' & Hc).
    rewrite E', neg_index_snoc. intros [= <-]. rewrite Hc. ring.
Qed.

Lemma Zcumsum_from_length acc l : length (Zcumsum_from acc l) = length l.
Proof. revert acc. induction l as [|x l IH]; intros acc; simpl; [|rewrite IH]; reflexivity. Qed.

(** Consecutive running totals differ by the element added. *)
Lemma Zcumsum_from_nth acc l i :
  (i < length l)%nat ->
  nth i (Zcumsum_from acc l) 0%Z
  = (match i with O => acc | S j => nth j (Zcumsum_from acc l) 0%Z end + nth i l 0)%Z.
Proof.
  revert acc i. induction l as [|x l IH]; intros acc i Hi; simpl in *; [lia|].
  destruct i as [|[|j]]; try reflexivity.
  - destruct l; simpl in *; [lia|reflexivity].
  - rewrite (IH (acc + x)%Z (S j)) by lia. reflexivity.
Qed.

(** ** Dates *)

Lemma month_index_add_months d i : month_index (add_months d i) = (month_index d + i)%Z.
Proof.
  unfold add_months, month_index at 1. simpl.
  pose proof (Z.div_mod (month_index d + i) 12). lia.
Qed.

(** Adding more months gives a later date, whatever the day does. *)
Lemma add_months_increasing d i j :
  (i < j)%Z -> date_ltb (add_months d i) (add_months d j) = true.
Proof.
  intros Hij. unfold date_ltb, add_months. simpl.
  set (a := (month_index d + i)%Z). set (b := (month_index d + j)%Z).
  assert (Hab : (a < b)%Z) by (subst a b; lia).
  pose proof (Z.div_mod a 12). pose proof (Z.div_mod b 12).
  pose proof (Z.mod_pos_bound a 12). pose proof (Z.mod_pos_bound b 12).
  destruct (Z.ltb_spec (a / 12) (b / 12)) as [|Hy]; [reflexivity|].
  assert (a / 12 = b / 12)%Z as -> by lia.
  rewrite Z.eqb_refl. simpl.
  destruct (Z.ltb_spec (a mod 12 + 1) (b mod 12 + 1)); [reflexivity|lia].
Qed.

Ltac date_cases :=
  unfold date_leb, date_ltb in *;
  repeat match goal with
         | d : Timestamp |- _ => destruct d
         end;
  simpl in *;
  repeat match goal with
         | |- context [(?x <? ?y)%Z] => destruct (Z.ltb_spec x y)
         | |- context [(?x =? ?y)%Z] => destruct (Z.eqb_spec x y)
         | H : context [(?x <? ?y)%Z] |- _ => destruct (Z.ltb_spec x y)
         | H : context [(?x =? ?y)%Z] |- _ => destruct (Z.eqb_spec x y)
         end;
  simpl in *; try congruence; try lia.

Lemma date_leb_total a b : date_leb a b = false -> date_leb b a = true.
Proof. intros H. date_cases. Qed.

Lemma date_max_of_leb a b : date_leb a b = true -> date_max a b = b.
Proof.
  intros H. unfold date_max. destruct (date_ltb a b) eqn:E; [reflexivity|].
  date_cases. f_equal; lia.
Qed.

Lemma last_cons_default {A} (x : A) l d d' : last (x :: l) d = last (x :: l) d'.
Proof.
  revert x. induction l as [|y l IH]; intros x; [reflexivity|].
  change (last (y :: l) d = last (y :: l) d'). apply IH.
Qed.

(** In a frame sorted by date the latest date is the date of the last row. *)
Lemma Date_max_sorted r0 rest :
  sorted_by_date (r0 :: rest) = true ->
  Date_max (Date r0) (map Date rest) = Date (last rest r0).
Proof.
  revert r0. induction rest as [|r1 rest IH]; intros r0 H; [reflexivity|].
  unfold Date_max in *. cbn [map fold_left].
  cbn [sorted_by_date] in H. apply andb_true_iff in H as [H01 H1].
  rewrite (date_max_of_leb _ _ H01), (IH r1 H1).
  destruct rest as [|r2 rest]; [reflexivity|].
  change (last (r1 :: r2 :: rest) r0) with (last (r2 :: rest) r0).
  f_equal. apply last_cons_default.
Qed.

Lemma insert_by_date_sorted r l :
  sorted_by_date l = true -> sorted_by_date (insert_by_date r l) = true.
Proof.
  induction l as [|x l IH]; intros H; [reflexivity|].
  cbn [insert_by_date]. destruct (date_leb (Date r) (Date x)) eqn:E.
  - cbn [sorted_by_date] in *. now rewrite E.
  - apply date_leb_total in E.
    assert (Hl : sorted_by_date l = true).
    { cbn [sorted_by_date] in H. destruct l; [reflexivity|].
      now apply andb_true_iff in H. }
    specialize (IH Hl). destruct l as [|y l].
    + cbn [insert_by_date sorted_by_date]. now rewrite E.
    + cbn [sorted_by_date] in H. apply andb_true_iff in H as [Hxy _].
      cbn [insert_by_date] in *. destruct (date_leb (Date r) (Date y)).
      * cbn [sorted_by_date] in *. now rewrite E, IH.
      * cbn [sorted_by_date] in *. now rewrite Hxy, IH.
Qed.

(** The frame selected for a county is sorted by date. *)
Lemma select_sorted df county : sorted_by_date (select df county) = true.
Proof.
  unfold select, sort_values_Date.
  induction (filter _ df) as [|r l IH]; [reflexivity|].
  cbn [fold_right]. now apply insert_by_date_sorted.
Qed.

(** ** The loop *)

Section LoopFacts.

Import Single.

Variable model : Model.
Variable round : Q -> Z.
Variable county_code : Z.
Variable latest_date : Timestamp.

Local Abbreviation body := (Single.body model round county_code latest_date).
Local Abbreviation loop := (Single.loop model round county_code latest_date).
Local Abbreviation trace := (Single.trace model round county_code latest_date).
Local Abbreviation engineer := (Single.engineer county_code).

Lemma engineer_ok m h c :
  (3 <= length h)%nat -> exists row, engineer m h c = Ok row.
Proof.
  intros H. unfold Single.engineer, rbind.
  destruct (neg_index_in_range h 1) as [a1 ->]; [lia|].
  destruct (neg_index_in_range h 2) as [a2 ->]; [lia|].
  destruct (neg_index_in_range h 3) as [a3 ->]; [lia|].
  eauto.
Qed.

Lemma engineer_short m h c :
  (length h < 3)%nat -> engineer m h c = Raise IndexError.
Proof.
  intros H. unfold Single.engineer, rbind.
  destruct (neg_index h 1) as [a1|e1] eqn:E1;
    [|now rewrite (neg_index_raises _ _ _ E1)].
  destruct (neg_index h 2) as [a2|e2] eqn:E2;
    [|now rewrite (neg_index_raises _ _ _ E2)].
  now rewrite neg_index_short.
Qed.

Lemma body_completed i v v' :
  body i v = Completed v' ->
  exists row p c,
    engineer (months_since_start v + 1)%Z (historical_ev v) (cumulative_ev v) = Ok row
    /\ model row = Ok (Finite p)
    /\ neg_index (cumulative_ev v) 1 = Ok c
    /\ v' = advance round latest_date i v p c.
Proof.
  unfold Single.body.
  destruct (Single.engineer _ _ _ _) as [row|] eqn:Er; [|discriminate].
  destruct (model row) as [[p| | |]|] eqn:Em; try discriminate.
  destruct (neg_index (cumulative_ev v) 1) as [c|] eqn:Ec; [|discriminate].
  intros [= <-]. exists row, p, c. auto.
Qed.

Lemma body_advance i v row p c :
  engineer (months_since_start v + 1)%Z (historical_ev v) (cumulative_ev v) = Ok row ->
  model row = Ok (Finite p) ->
  neg_index (cumulative_ev v) 1 = Ok c ->
  body i v = Completed (advance round latest_date i v p c).
Proof. intros Er Em Ec. unfold Single.body. now rewrite Er, Em, Ec. Qed.

(** A step whose prediction fails leaves the windows and the rows recorded
    so far as they were. *)
Lemma body_failure i v row e :
  engineer (months_since_start v + 1)%Z (historical_ev v) (cumulative_ev v) = Ok row ->
  failure (model row) = Some e ->
  body i v = Aborted e (mkVars (months_since_start v + 1)%Z (historical_ev v)
                          (cumulative_ev v) (future_rows v)).
Proof.
  intros Er Ef. unfold Single.body. rewrite Er.
  destruct (model row) as [[p| | |]|]; simpl in Ef; congruence.
Qed.

Lemma loop_app k m i v :
  loop (k + m) i v =
  match loop k i v with
  | Completed v' => loop m (i + k) v'
  | Aborted e v' => Aborted e v'
  end.
Proof.
  revert i v. induction k as [|k IH]; intros i v; simpl.
  - now rewrite Nat.add_0_r.
  - destruct (body i v) as [v1|e v1]; [|reflexivity].
    rewrite IH. now rewrite Nat.add_succ_comm.
Qed.

Lemma trace_step n i v row p c :
  engineer (months_since_start v + 1)%Z (historical_ev v) (cumulative_ev v) = Ok row ->
  model row = Ok (Finite p) ->
  neg_index (cumulative_ev v) 1 = Ok c ->
  trace (S n) i v = (row, Ok (Finite p)) :: trace n (S i) (advance round latest_date i v p c).
Proof.
  intros Er Em Ec. cbn [Single.trace].
  now rewrite Er, Em, (body_advance i v row p c Er Em Ec).
Qed.

Lemma advance_ready i v p c : ready v -> ready (advance round latest_date i v p c).
Proof.
  intros [Hh Hc]. unfold ready, advance.
  cbn [historical_ev cumulative_ev].
  rewrite !lastn_length, !length_app. cbn [length]. lia.
Qed.

Lemma advance_trimmed i v p c : trimmed (advance round latest_date i v p c).
Proof. split; simpl; apply lastn_length_le. Qed.

Lemma loop_completed k : forall i v v',
  loop k i v = Completed v' ->
  length (predictions (trace k i v)) = k
  /\ future_rows v' = future_rows v ++ recorded round latest_date i k (predictions (trace k i v))
  /\ (forall c, neg_index (cumulative_ev v) 1 = Ok c ->
      exists c', neg_index (cumulative_ev v') 1 = Ok c'
                 /\ c' == c + Qsum (predictions (trace k i v)))
  /\ (trimmed v -> trimmed v')
  /\ (ready v -> ready v').
Proof.
  induction k as [|k IH]; intros i v v' H.
  - simpl in H. injection H as <-. simpl. unfold recorded. simpl.
    rewrite app_nil_r. split; [reflexivity|]. split; [reflexivity|].
    split; [|tauto].
    intros c Hc. exists c. split; [assumption|]. unfold Qsum. simpl. ring.
  - cbn [Single.loop] in H.
    destruct (body i v) as [v1|] eqn:Eb; [|discriminate].
    destruct (body_completed _ _ _ Eb) as (row & p & c & Er & Em & Ec & ->).
    rewrite (trace_step k i v row p c Er Em Ec). cbn [predictions].
    destruct (IH _ _ _ H) as (Hlen & Hrows & Hcum & Htrim & Hready).
    split; [simpl; now rewrite Hlen|].
    split.
    { rewrite Hrows. unfold recorded. simpl. now rewrite <- app_assoc. }
    split.
    { intros c0 Hc0. rewrite Ec in Hc0. injection Hc0 as <-.
      destruct (Hcum (c + p)) as (c' & Hc' & Hsum).
      { simpl. apply neg_index_lastn_snoc. }
      exists c'. split; [assumption|]. rewrite Hsum. unfold Qsum. simpl. ring. }
    split.
    { intros _. apply Htrim, advance_trimmed. }
    { intros Hr. now apply Hready, advance_ready. }
Qed.

(** With a model that answers every row with a finite number the loop runs
    to its end from a ready state. *)
Lemma loop_runs n : forall i v,
  (forall row, exists p, model row = Ok (Finite p)) ->
  ready v ->
  exists v', loop n i v = Completed v'.
Proof.
  induction n as [|n IH]; intros i v Hm Hr; [now exists v|].
  cbn [Single.loop].
  destruct (engineer_ok (months_since_start v + 1)%Z (historical_ev v)
              (cumulative_ev v) (proj1 Hr)) as [row Er].
  destruct (Hm row) as [p Em].
  destruct (neg_index_in_range (cumulative_ev v) 1) as [c Ec];
    [destruct Hr; lia|].
  rewrite (body_advance i v row p c Er Em Ec).
  apply IH; [assumption|now apply advance_ready].
Qed.

End LoopFacts.

Lemma seed_trimmed r0 rest : trimmed (Single.seed r0 rest).
Proof.
  split; simpl; [|unfold cumsum; rewrite cumsum_from_length]; apply lastn_length_le.
Qed.

Lemma seed_length r0 rest :
  length (Single.historical_ev (Single.seed r0 rest)) = Nat.min 6 (S (length rest))
  /\ length (Single.cumulative_ev (Single.seed r0 rest)) = Nat.min 6 (S (length rest)).
Proof.
  simpl Single.historical_ev. simpl Single.cumulative_ev.
  unfold cumsum. rewrite cumsum_from_length, lastn_length.
  cbn [length]. rewrite length_map. auto.
Qed.

Lemma seed_ready r0 rest : (2 <= length rest)%nat -> ready (Single.seed r0 rest).
Proof. intros H. unfold ready. destruct (seed_length r0 rest) as [-> ->]. lia. Qed.

(** ** The forecast frame *)

Section ForecastFacts.

Variable model : Model.
Variable round : Q -> Z.

Lemma recorded_length ld i k preds :
  length preds = k -> length (recorded round ld i k preds) = k.
Proof.
  intros H. unfold recorded. rewrite length_map, length_combine, length_seq. lia.
Qed.

Lemma recorded_Predicted ld k : forall i preds,
  length preds = k ->
  map Predicted_EV_Total (recorded round ld i k preds) = map round preds.
Proof.
  unfold recorded. induction k as [|k IH]; intros i [|p preds] H; try discriminate.
  - reflexivity.
  - simpl. f_equal. apply IH. simpl in H. lia.
Qed.

Lemma recorded_Date ld k : forall i preds,
  length preds = k ->
  map fr_Date (recorded round ld i k preds)
  = map (fun j => add_months ld (Z.of_nat j)) (seq i k).
Proof.
  unfold recorded. induction k as [|k IH]; intros i [|p preds] H; try discriminate.
  - reflexivity.
  - simpl. f_equal. apply IH. simpl in H. lia.
Qed.

Lemma with_Cumulative_EV_columns rows c :
  length rows = length c ->
  map fc_Date (with_Cumulative_EV rows c) = map fr_Date rows
  /\ map fc_Predicted_EV_Total (with_Cumulative_EV rows c) = map Predicted_EV_Total rows
  /\ map fc_Cumulative_EV (with_Cumulative_EV rows c) = c.
Proof.
  unfold with_Cumulative_EV. revert c.
  induction rows as [|r rows IH]; intros [|x c] H; try discriminate.
  - auto.
  - simpl in H. destruct (IH c) as (H1 & H2 & H3); [lia|].
    simpl. now rewrite H1, H2, H3.
Qed.

Lemma forecast_returns n r0 rest out :
  Single.forecast model round n (r0 :: rest) = Ok out ->
  exists v last,
    Single.loop model round (County_encoded r0)
      (Date_max (Date r0) (map Date rest)) n 1 (Single.seed r0 rest) = Completed v
    /\ neg_index (cumsum (map EV_Total (r0 :: rest))) 1 = Ok last
    /\ Single.future_rows v <> []
    /\ Single.forecast_df out = stitched v last.
Proof.
  unfold Single.forecast.
  destruct (Single.loop _ _ _ _ _ _ _) as [v|]; [|discriminate].
  unfold column_Predicted_EV_Total, rbind.
  destruct (Single.future_rows v) as [|f fs] eqn:Ef; [discriminate|].
  destruct (neg_index _ 1) as [last|]; [|discriminate].
  intros [= <-]. exists v, last. unfold stitched. rewrite Ef.
  repeat split; congruence.
Qed.

Lemma forecast_completes n r0 rest v :
  Single.loop model round (County_encoded r0)
    (Date_max (Date r0) (map Date rest)) n 1 (Single.seed r0 rest) = Completed v ->
  (1 <= n)%nat ->
  exists out last,
    Single.forecast model round n (r0 :: rest) = Ok out
    /\ neg_index (cumsum (map EV_Total (r0 :: rest))) 1 = Ok last
    /\ Single.forecast_df out = stitched v last.
Proof.
  intros Hl Hn. unfold Single.forecast. rewrite Hl.
  destruct (loop_completed model round _ _ n 1 _ _ Hl) as (Hlen & Hrows & _).
  destruct (neg_index_in_range (cumsum (map EV_Total (r0 :: rest))) 1) as [last El].
  { unfold cumsum. rewrite cumsum_from_length. simpl. lia. }
  rewrite El. unfold column_Predicted_EV_Total, rbind.
  destruct (Single.future_rows v) as [|f fs] eqn:Ef.
  - apply (f_equal (@length _)) in Hrows. simpl in Hrows.
    rewrite recorded_length in Hrows by assumption. lia.
  - eexists _, last. split; [reflexivity|]. split; [reflexivity|].
    unfold stitched. now rewrite Ef.
Qed.

(** The columns of the stitched frame, from the predictions of the run. *)
Lemma stitched_columns n r0 rest v last :
  let ld := Date_max (Date r0) (map Date rest) in
  let preds := predictions (Single.trace model round (County_encoded r0) ld n 1
                              (Single.seed r0 rest)) in
  Single.loop model round (County_encoded r0) ld n 1 (Single.seed r0 rest)
  = Completed v ->
  length preds = n
  /\ map fc_Date (stitched v last)
     = map (fun j => add_months ld (Z.of_nat j)) (seq 1 n)
  /\ map fc_Predicted_EV_Total (stitched v last) = map round preds
  /\ map fc_Cumulative_EV (stitched v last)
     = map (fun z => inject_Z z + last) (Zcumsum (map round preds)).
Proof.
  intros ld preds Hl.
  destruct (loop_completed model round _ _ n 1 _ _ Hl) as (Hlen & Hrows & _).
  fold ld preds in Hlen, Hrows. simpl in Hrows.
  split; [assumption|].
  destruct (with_Cumulative_EV_columns (Single.future_rows v)
              (map (fun z => inject_Z z + last)
                 (Zcumsum (map Predicted_EV_Total (Single.future_rows v)))))
    as (H1 & H2 & H3).
  { rewrite length_map. unfold Zcumsum. now rewrite Zcumsum_from_length, length_map. }
  unfold stitched. rewrite H1, H2, H3, Hrows.
  rewrite recorded_Date, recorded_Predicted by assumption. auto.
Qed.

End ForecastFacts.

(** ** Cumulative stitching *)

(** C1, as stated, fails: with the history 100, 120, 150 and a prediction
    of 160.4 the first stitched value is 370 + 160 = 530, not 370 + 160.4. *)
Lemma stitching_uses_rounded_values :
  exists out,
    Single.forecast (constant_model (Ok (Finite (802 # 5)))) round_half_even 1 history3
    = Ok out
    /\ predictions (Single.trace (constant_model (Ok (Finite (802 # 5))))
                      round_half_even 7 (mkTimestamp 2024 3 31) 1 1
                      (Single.seed (mkRow "A" (mkTimestamp 2024 1 31) 100 0 7)
                         (tl history3)))
       = [802 # 5]
    /\ neg_index (cumsum (map EV_Total history3)) 1 = Ok 370
    /\ ~ nth 0 (map fc_Cumulative_EV (Single.forecast_df out)) 0 == 370 + (802 # 5).
Proof.
  eexists. split; [vm_compute; reflexivity|].
  split; [vm_compute; reflexivity|].
  split; [vm_compute; reflexivity|].
  vm_compute. discriminate.
Qed.

(** C1 (amended): the stitched cumulative series is built from the rounded
    predictions.  As long as the history, the rounded predictions and the
    totals stay in the range of the 64-bit integers, its first value is the
    final cumulative value of the whole history plus the rounded prediction of
    step 0, and each later value exceeds the one before by the rounded
    prediction of its step. *)
Theorem stitched_cumulative_steps :
  forall (model : Model) (n : nat) (r0 : Row) (rest : DataFrame) (out : Single.output),
    Single.forecast model round_half_even n (r0 :: rest) = Ok out ->
    within_int64 (r0 :: rest) (Single.forecast_df out) = true ->
    let preds :=
      predictions (Single.trace model round_half_even (County_encoded r0)
                     (Date_max (Date r0) (map Date rest)) n 1 (Single.seed r0 rest)) in
    let cumulative_forecast := map fc_Cumulative_EV (Single.forecast_df out) in
    length cumulative_forecast = n
    /\ length preds = n
    /\ (exists last,
          neg_index (cumsum (map EV_Total (r0 :: rest))) 1 = Ok last
          /\ last == Qsum (map EV_Total (r0 :: rest))
          /\ nth 0 cumulative_forecast 0
             == last + inject_Z (round_half_even (nth 0 preds 0)))
    /\ (forall i, (0 < i < n)%nat ->
          nth i cumulative_forecast 0 - nth (i - 1) cumulative_forecast 0
          == inject_Z (round_half_even (nth i preds 0))).
Proof.
  intros model n r0 rest out H _ preds cf.
  destruct (forecast_returns _ _ _ _ _ _ H) as (v & last & Hl & Elast & Hne & Hdf).
  destruct (stitched_columns model round_half_even n r0 rest v last Hl)
    as (Hlen & _ & _ & Hcum).
  fold preds in Hlen, Hcum.
  assert (Hcf : cf = map (fun z => inject_Z z + last)
                       (Zcumsum (map round_half_even preds))).
  { unfold cf. now rewrite Hdf. }
  assert (Hzl : length (Zcumsum (map round_half_even preds)) = n).
  { unfold Zcumsum. now rewrite Zcumsum_from_length, length_map. }
  assert (Hnth : forall i, (i < n)%nat ->
            nth i cf 0 = inject_Z (nth i (Zcumsum (map round_half_even preds)) 0%Z) + last).
  { intros i Hi. rewrite Hcf.
    rewrite (nth_indep _ 0 (inject_Z 0 + last)) by (rewrite length_map; lia).
    apply (map_nth (fun z => inject_Z z + last)). }
  assert (Hr : forall i, (i < n)%nat ->
            nth i (map round_half_even preds) 0%Z = round_half_even (nth i preds 0)).
  { intros i Hi.
    rewrite (nth_indep _ 0%Z (round_half_even 0)) by (rewrite length_map; lia).
    apply map_nth. }
  split; [rewrite Hcf, length_map; exact Hzl|].
  split; [assumption|].
  split.
  - exists last. split; [assumption|]. split; [now apply cumsum_last|].
    assert (Hn : (0 < n)%nat).
    { destruct n; [|lia]. simpl in Hl. injection Hl as <-. now elim Hne. }
    rewrite Hnth by assumption. unfold Zcumsum.
    rewrite Zcumsum_from_nth by (rewrite length_map; lia).
    rewrite Hr by assumption. rewrite inject_Z_plus. simpl. ring.
  - intros i Hi. rewrite !Hnth by lia. unfold Zcumsum.
    rewrite (Zcumsum_from_nth 0 _ i) by (rewrite length_map; lia).
    destruct i as [|j]; [lia|].
    replace (S j - 1)%nat with j by lia.
    rewrite Hr by lia. rewrite inject_Z_plus. ring.
Qed.

Lemma stitched_cumulative_steps_witness :
  exists out,
    Single.forecast (constant_model (Ok (Finite (802 # 5)))) round_half_even 2 history3
    = Ok out
    /\ nth 1 (map fc_Cumulative_EV (Single.forecast_df out)) 0
       - nth 0 (map fc_Cumulative_EV (Single.forecast_df out)) 0
       == inject_Z 160.
Proof.
  eexists. split; [vm_compute; reflexivity|].
  refine (proj2 (proj2 (proj2
    (stitched_cumulative_steps (constant_model (Ok (Finite (802 # 5)))) 2
       (mkRow "A" (mkTimestamp 2024 1 31) 100 0 7) (tl history3) _ _ _))) 1%nat _).
  - vm_compute. reflexivity.
  - vm_compute. reflexivity.
  - lia.
Defined.

(** ** Short histories *)

(** C2, as stated, fails: a history of two points ends the forecast with
    Python's [IndexError], not with an error of its own. *)
Lemma short_history_raises_IndexError :
  Single.forecast (constant_model (Ok (Finite 160))) round_half_even
    Single.forecast_horizon history2 = Raise IndexError
  /\ Single.forecast (constant_model (Ok (Finite 160))) round_half_even
       Single.forecast_horizon history2 <> Raise InsufficientHistory.
Proof. split; [reflexivity|discriminate]. Qed.

(** C2 (amended): for every history with fewer than 3 points and every
    horizon of at least one step the forecast fails with [IndexError], raised
    by the lookup of the lags at the first step (by the lookup of the county
    code when the history is empty): the model is not consulted and no
    forecast row is recorded. *)
Theorem short_history_fails :
  forall (model : Model) (round : Q -> Z) (n : nat) (county_df : DataFrame),
    (length county_df < 3)%nat ->
    (1 <= n)%nat ->
    Single.forecast model round n county_df = Raise IndexError
    /\ forall r0 rest, county_df = r0 :: rest ->
         Single.trace model round (County_encoded r0)
           (Date_max (Date r0) (map Date rest)) n 1 (Single.seed r0 rest) = []
         /\ exists v,
              Single.loop model round (County_encoded r0)
                (Date_max (Date r0) (map Date rest)) n 1 (Single.seed r0 rest)
              = Aborted IndexError v
              /\ Single.future_rows v = [].
Proof.
  intros model round n county_df Hlen Hn.
  destruct county_df as [|r0 rest]; [split; [reflexivity|discriminate]|].
  assert (He : forall m,
             Single.engineer (County_encoded r0) m
               (Single.historical_ev (Single.seed r0 rest))
               (Single.cumulative_ev (Single.seed r0 rest)) = Raise IndexError).
  { intros m. apply engineer_short.
    rewrite (proj1 (seed_length r0 rest)). simpl in Hlen. lia. }
  destruct n as [|n]; [lia|].
  assert (Hb : forall ld,
             Single.body model round (County_encoded r0) ld 1 (Single.seed r0 rest)
             = Aborted IndexError
                 (Single.mkVars (Single.months_since_start (Single.seed r0 rest) + 1)
                    (Single.historical_ev (Single.seed r0 rest))
                    (Single.cumulative_ev (Single.seed r0 rest)) [])).
  { intros ld. unfold Single.body. now rewrite He. }
  split.
  - unfold Single.forecast. cbn [Single.loop]. now rewrite Hb.
  - intros r0' rest' [= <- <-]. split.
    + cbn [Single.trace]. now rewrite He.
    + eexists. split; [cbn [Single.loop]; now rewrite Hb|reflexivity].
Qed.

Lemma short_history_fails_witness :
  Single.forecast (constant_model (Ok (Finite 160))) round_half_even 36 history2
  = Raise IndexError.
Proof.
  refine (proj1 (short_history_fails (constant_model (Ok (Finite 160)))
                   round_half_even 36 history2 _ _)).
  - simpl. lia.
  - lia.
Defined.

(** ** The rolling windows *)

(** C3, as stated, fails: with seven historical values of 1 the cumulative
    window starts from the sums of the last six values, so its last element
    is 6 while the running total of the history is 7. *)
Lemma cumulative_window_seeded_from_last_six :
  Single.cumulative_ev (Single.seed (mkRow "A" (mkTimestamp 2024 1 31) 1 0 7)
                          (tl history7))
  = [1; 2; 3; 4; 5; 6]
  /\ lastn 6 (cumsum (map EV_Total history7)) = [2; 3; 4; 5; 6; 7]
  /\ neg_index (Single.cumulative_ev
                  (Single.seed (mkRow "A" (mkTimestamp 2024 1 31) 1 0 7)
                     (tl history7))) 1 = Ok 6
  /\ ~ 6 == Qsum (map EV_Total history7).
Proof.
  split; [vm_compute; reflexivity|].
  split; [vm_compute; reflexivity|].
  split; [vm_compute; reflexivity|].
  vm_compute. discriminate.
Qed.

(** C3 (amended): before the first step and after every step the raw window
    and the cumulative window have at most 6 elements; the cumulative window
    is seeded from the cumulative sums of the last 6 (or fewer) historical
    values, and its last element is the sum of those values and of all the
    unrounded predictions made so far. *)
Theorem rolling_window_invariant :
  forall (model : Model) (round : Q -> Z) (r0 : Row) (rest : DataFrame)
         (k : nat) (v : Single.vars),
    Single.loop model round (County_encoded r0) (Date_max (Date r0) (map Date rest))
      k 1 (Single.seed r0 rest) = Completed v ->
    let window := lastn 6 (map EV_Total (r0 :: rest)) in
    let preds :=
      predictions (Single.trace model round (County_encoded r0)
                     (Date_max (Date r0) (map Date rest)) k 1 (Single.seed r0 rest)) in
    Single.cumulative_ev (Single.seed r0 rest) = cumsum window
    /\ (length (Single.historical_ev v) <= 6)%nat
    /\ (length (Single.cumulative_ev v) <= 6)%nat
    /\ length preds = k
    /\ exists c, neg_index (Single.cumulative_ev v) 1 = Ok c
                 /\ c == Qsum window + Qsum preds.
Proof.
  intros model round r0 rest k v H window preds.
  destruct (loop_completed _ _ _ _ _ _ _ _ H) as (Hlen & _ & Hcum & Htrim & _).
  destruct (Htrim (seed_trimmed r0 rest)) as [Hh Hc].
  split; [reflexivity|]. do 3 (split; [assumption|]).
  destruct (neg_index_in_range (Single.cumulative_ev (Single.seed r0 rest)) 1)
    as [c0 Ec0].
  { rewrite (proj2 (seed_length r0 rest)). lia. }
  destruct (Hcum c0 Ec0) as (c & Ec & Hsum).
  exists c. split; [assumption|].
  rewrite Hsum. apply cumsum_last in Ec0. now rewrite Ec0.
Qed.

Lemma rolling_window_invariant_witness :
  exists v,
    Single.loop (constant_model (Ok (Finite (802 # 5)))) round_half_even 7
      (mkTimestamp 2024 3 31) 2 1
      (Single.seed (mkRow "A" (mkTimestamp 2024 1 31) 100 0 7) (tl history3))
    = Completed v
    /\ (length (Single.historical_ev v) <= 6)%nat.
Proof.
  eexists. split; [vm_compute; reflexivity|].
  refine (proj1 (proj2
    (rolling_window_invariant (constant_model (Ok (Finite (802 # 5))))
       round_half_even (mkRow "A" (mkTimestamp 2024 1 31) 100 0 7) (tl history3)
       2 _ _))).
  vm_compute. reflexivity.
Defined.

(** ** The forecast dates *)

Lemma nth_forecast_date ld n k d :
  (k < n)%nat ->
  nth k (map (fun j => add_months ld (Z.of_nat j)) (seq 1 n)) d
  = add_months ld (Z.of_nat (S k)).
Proof.
  intros Hk.
  rewrite (nth_indep _ d (add_months ld (Z.of_nat 0)))
    by (rewrite length_map, length_seq; lia).
  rewrite (map_nth (fun j => add_months ld (Z.of_nat j))).
  now rewrite seq_nth by lia.
Qed.

(** C4: for a history of at least 3 points, sorted by date, a horizon of at
    least one step and a model that answers every row with a finite number,
    the forecast returns exactly [n] rows, in the order they were generated:
    row [k] carries the rounded prediction of step [k] and the date [k + 1]
    months after the last historical date, so the dates increase strictly,
    one calendar month at a time. *)
Theorem forecast_returns_horizon_rows :
  forall (model : Model) (round : Q -> Z) (n : nat) (r0 : Row) (rest : DataFrame),
    (3 <= length (r0 :: rest))%nat ->
    (1 <= n)%nat ->
    sorted_by_date (r0 :: rest) = true ->
    (forall row, exists p, model row = Ok (Finite p)) ->
    exists out,
      Single.forecast model round n (r0 :: rest) = Ok out
      /\ length (Single.forecast_df out) = n
      /\ map fc_Predicted_EV_Total (Single.forecast_df out)
         = map round
             (predictions (Single.trace model round (County_encoded r0)
                (Date_max (Date r0) (map Date rest)) n 1 (Single.seed r0 rest)))
      /\ (forall k d, (k < n)%nat ->
            nth k (map fc_Date (Single.forecast_df out)) d
            = add_months (Date (last rest r0)) (Z.of_nat (S k)))
      /\ (forall k d, (S k < n)%nat ->
            date_ltb (nth k (map fc_Date (Single.forecast_df out)) d)
                     (nth (S k) (map fc_Date (Single.forecast_df out)) d) = true
            /\ month_index (nth (S k) (map fc_Date (Single.forecast_df out)) d)
               = (month_index (nth k (map fc_Date (Single.forecast_df out)) d) + 1)%Z)
      /\ (forall d, month_index (nth 0 (map fc_Date (Single.forecast_df out)) d)
                    = (month_index (Date (last rest r0)) + 1)%Z).
Proof.
  intros model round n r0 rest Hlen Hn Hsorted Hmodel.
  destruct (loop_runs model round (County_encoded r0)
              (Date_max (Date r0) (map Date rest)) n 1 (Single.seed r0 rest) Hmodel)
    as [v Hl].
  { apply seed_ready. simpl in Hlen. lia. }
  destruct (forecast_completes _ _ _ _ _ _ Hl Hn) as (out & last & Hout & _ & Hdf).
  destruct (stitched_columns model round n r0 rest v last Hl)
    as (Hp & Hdates & Hpred & _).
  rewrite (Date_max_sorted _ _ Hsorted) in Hdates.
  exists out. rewrite Hdf.
  assert (Hnth : forall k d, (k < n)%nat ->
            nth k (map fc_Date (stitched v last)) d
            = add_months (Date (List.last rest r0)) (Z.of_nat (S k))).
  { intros k d Hk. rewrite Hdates. now apply nth_forecast_date. }
  split; [assumption|].
  split.
  { rewrite <- (length_map fc_Date), Hdates, length_map. apply length_seq. }
  split; [assumption|].
  split; [assumption|].
  split.
  - intros k d Hk. rewrite !Hnth by lia. split.
    + apply add_months_increasing. lia.
    + rewrite !month_index_add_months. lia.
  - intros d. rewrite Hnth by lia. rewrite month_index_add_months. lia.
Qed.

Lemma forecast_returns_horizon_rows_witness :
  exists out,
    Single.forecast (constant_model (Ok (Finite (802 # 5)))) round_half_even 36 history3
    = Ok out
    /\ length (Single.forecast_df out) = 36%nat.
Proof.
  destruct (forecast_returns_horizon_rows (constant_model (Ok (Finite (802 # 5))))
              round_half_even 36 (mkRow "A" (mkTimestamp 2024 1 31) 100 0 7)
              (tl history3))
    as (out & Hout & Hlen & _).
  - simpl. lia.
  - lia.
  - reflexivity.
  - intros row. exists (802 # 5). reflexivity.
  - exists out. split; assumption.
Defined.

(** ** The features *)

Lemma to_float64_finite_iff q :
  is_finite (to_float64 q) = true <-> below_float64_overflow q.
Proof.
  unfold to_float64, below_float64_overflow.
  destruct (Qle_bool float64_overflow q) eqn:E1.
  - apply Qle_bool_iff in E1. simpl. split; [discriminate|]. intros [_ H]. lra.
  - assert (H1 : ~ float64_overflow <= q)
      by (intros Hc; apply Qle_bool_iff in Hc; congruence).
    destruct (Qle_bool q (- float64_overflow)) eqn:E2.
    + apply Qle_bool_iff in E2. simpl. split; [discriminate|]. intros [H _]. lra.
    + assert (H2 : ~ q <= - float64_overflow)
        by (intros Hc; apply Qle_bool_iff in Hc; congruence).
      simpl. split; [|reflexivity]. intros _. split; lra.
Qed.

Lemma to_float64_finite q : below_float64_overflow q -> to_float64 q = Finite q.
Proof.
  intros H. apply to_float64_finite_iff in H. unfold to_float64 in *.
  destruct (Qle_bool float64_overflow q); [discriminate|].
  destruct (Qle_bool q (- float64_overflow)); [discriminate|reflexivity].
Qed.

Lemma to_float64_not_nan q : to_float64 q <> NaN.
Proof.
  unfold to_float64. destruct (Qle_bool float64_overflow q); [discriminate|].
  destruct (Qle_bool q (- float64_overflow)); discriminate.
Qed.

(** The division by a nonzero number of a difference of finite numbers is
    never NaN, and is finite exactly when neither the difference nor the
    quotient reaches the overflow threshold. *)
Lemma guarded_quotient a b :
  Qeq_bool b 0 = false ->
  np_div (np_sub a b) b <> NaN
  /\ (is_finite (np_div (np_sub a b) b) = true
      <-> below_float64_overflow (a - b) /\ below_float64_overflow ((a - b) / b))
  /\ (below_float64_overflow (a - b) -> below_float64_overflow ((a - b) / b) ->
      np_div (np_sub a b) b = Finite ((a - b) / b)).
Proof.
  intros Hb. unfold np_sub.
  destruct (to_float64 (a - b)) as [d| | |] eqn:Ed.
  - assert (Hd : below_float64_overflow (a - b))
      by (apply to_float64_finite_iff; now rewrite Ed).
    rewrite (to_float64_finite _ Hd) in Ed. injection Ed as <-.
    cbn [np_div]. rewrite Hb. split; [apply to_float64_not_nan|]. split.
    + rewrite to_float64_finite_iff. tauto.
    + intros _ Hq. now apply to_float64_finite.
  - now apply to_float64_not_nan in Ed.
  - assert (Hd : ~ below_float64_overflow (a - b)).
    { intros Hc. apply to_float64_finite_iff in Hc. now rewrite Ed in Hc. }
    cbn [np_div]. split; [destruct (Qle_bool 0 b); discriminate|].
    split; [|tauto]. destruct (Qle_bool 0 b); simpl; split; try discriminate; tauto.
  - assert (Hd : ~ below_float64_overflow (a - b)).
    { intros Hc. apply to_float64_finite_iff in Hc. now rewrite Ed in Hc. }
    cbn [np_div]. split; [destruct (Qle_bool 0 b); discriminate|].
    split; [|tauto]. destruct (Qle_bool 0 b); simpl; split; try discriminate; tauto.
Qed.

(** The row handed to the model at step [k] is engineered from the
    variables the [k] steps before have left. *)
Lemma trace_engineered model round county_code latest_date k :
  forall n i v vk row answer,
    Single.loop model round county_code latest_date k i v = Completed vk ->
    nth_error (Single.trace model round county_code latest_date n i v) k
    = Some (row, answer) ->
    Single.engineer county_code (Single.months_since_start vk + 1)%Z
      (Single.historical_ev vk) (Single.cumulative_ev vk) = Ok row.
Proof.
  induction k as [|k IH]; intros n i v vk row answer Hl Ht.
  - injection Hl as <-. destruct n as [|n]; [discriminate|].
    cbn [Single.trace] in Ht.
    destruct (Single.engineer _ _ _ _) as [row0|]; [|discriminate].
    now injection Ht as <- _.
  - cbn [Single.loop] in Hl. destruct n as [|n]; [discriminate|].
    cbn [Single.trace] in Ht.
    destruct (Single.engineer _ _ _ _) as [row0|]; [|discriminate].
    cbn [nth_error] in Ht.
    destruct (Single.body model round county_code latest_date i v) as [v1|];
      [|discriminate].
    exact (IH _ _ _ _ _ _ Hl Ht).
Qed.

(** C5, as stated, fails: the guard excludes a zero divisor only.  With the
    history 100, 120, 150 and the predictions 5e-324 (the smallest positive
    float) and then 1, the third step has lag1 = 1 and lag2 = 5e-324, both
    finite and lag2 not 0, and its pct_change_1 is an infinity. *)
Lemma pct_change_overflows_to_infinity :
  (exists out, Single.forecast tiny_then_one round_half_even 3 history3 = Ok out)
  /\ exists row answer,
       nth_error (Single.trace tiny_then_one round_half_even 7
                    (mkTimestamp 2024 3 31) 3 1
                    (Single.seed (mkRow "A" (mkTimestamp 2024 1 31) 100 0 7)
                       (tl history3))) 2
       = Some (row, answer)
       /\ ev_total_lag1 row = 1
       /\ ev_total_lag2 row = 1 # 2 ^ 1074
       /\ Qeq_bool (ev_total_lag2 row) 0 = false
       /\ ev_total_pct_change_1 row = PosInf
       /\ is_finite (ev_total_pct_change_1 row) = false.
Proof.
  split; [eexists; vm_compute; reflexivity|].
  eexists. eexists. split; [vm_compute; reflexivity|].
  repeat split; vm_compute; reflexivity.
Qed.

(** C5 (amended): at every forecast step lag1, lag2 and lag3 are the last
    three values of the raw window the steps before have left.  If lag2 == 0
    then pct_change_1 == 0 exactly; otherwise pct_change_1 is the float
    quotient (lag1 - lag2) / lag2, which is never NaN, equals the exact
    quotient when the difference and the quotient stay below the overflow
    threshold of the 64-bit floats, and is an infinity otherwise.  The same
    holds of pct_change_3 with lag3.  The guard excludes the division by
    zero, not the overflow. *)
Theorem pct_change_guards_zero_divisor :
  forall (model : Model) (round : Q -> Z) (county_code : Z) (latest_date : Timestamp)
         (n i k : nat) (v vk : Single.vars) (row : FeatureRow)
         (answer : result float64),
    Single.loop model round county_code latest_date k i v = Completed vk ->
    nth_error (Single.trace model round county_code latest_date n i v) k
    = Some (row, answer) ->
    let lag1 := ev_total_lag1 row in
    let lag2 := ev_total_lag2 row in
    let lag3 := ev_total_lag3 row in
    let pct_change_1 := ev_total_pct_change_1 row in
    let pct_change_3 := ev_total_pct_change_3 row in
    neg_index (Single.historical_ev vk) 1 = Ok lag1
    /\ neg_index (Single.historical_ev vk) 2 = Ok lag2
    /\ neg_index (Single.historical_ev vk) 3 = Ok lag3
    /\ (Qeq_bool lag2 0 = true -> pct_change_1 = Finite 0)
    /\ (Qeq_bool lag3 0 = true -> pct_change_3 = Finite 0)
    /\ (Qeq_bool lag2 0 = false ->
        pct_change_1 <> NaN
        /\ (is_finite pct_change_1 = true
            <-> below_float64_overflow (lag1 - lag2)
                /\ below_float64_overflow ((lag1 - lag2) / lag2))
        /\ (below_float64_overflow (lag1 - lag2) ->
            below_float64_overflow ((lag1 - lag2) / lag2) ->
            pct_change_1 = Finite ((lag1 - lag2) / lag2)))
    /\ (Qeq_bool lag3 0 = false ->
        pct_change_3 <> NaN
        /\ (is_finite pct_change_3 = true
            <-> below_float64_overflow (lag1 - lag3)
                /\ below_float64_overflow ((lag1 - lag3) / lag3))
        /\ (below_float64_overflow (lag1 - lag3) ->
            below_float64_overflow ((lag1 - lag3) / lag3) ->
            pct_change_3 = Finite ((lag1 - lag3) / lag3))).
Proof.
  intros model round county_code latest_date n i k v vk row answer Hl Ht.
  pose proof (trace_engineered _ _ _ _ _ _ _ _ _ _ _ Hl Ht) as Er.
  revert Er. unfold Single.engineer, rbind.
  destruct (neg_index (Single.historical_ev vk) 1) as [a1|]; [|discriminate].
  destruct (neg_index (Single.historical_ev vk) 2) as [a2|]; [|discriminate].
  destruct (neg_index (Single.historical_ev vk) 3) as [a3|]; [|discriminate].
  intros [= <-]. cbn. unfold pct_change.
  do 3 (split; [reflexivity|]).
  split; [now intros ->|]. split; [now intros ->|].
  split; intros E; rewrite E; cbn [negb]; now apply guarded_quotient.
Qed.

Lemma pct_change_guards_zero_divisor_witness :
  neg_index (Single.historical_ev
               (Single.seed (mkRow "A" (mkTimestamp 2024 1 31) 0 0 7)
                  (tl history_flat))) 2 = Ok 0
  /\ ev_total_pct_change_1
       (mkFeatureRow 3 7 5 0 0 (5 # 3) (Finite 0) (Finite 0) 0) = Finite 0.
Proof.
  pose proof (pct_change_guards_zero_divisor (constant_model (Ok (Finite 4)))
    round_half_even 7 (mkTimestamp 2024 3 31) 1 1 0
    (Single.seed (mkRow "A" (mkTimestamp 2024 1 31) 0 0 7) (tl history_flat))
    (Single.seed (mkRow "A" (mkTimestamp 2024 1 31) 0 0 7) (tl history_flat))
    (mkFeatureRow 3 7 5 0 0 (5 # 3) (Finite 0) (Finite 0) 0)
    (Ok (Finite 4)) eq_refl eq_refl) as (_ & H2 & _ & H4 & _).
  split; [exact H2|]. apply H4. reflexivity.
Defined.

(** ** The growth slope *)

Lemma Qsquare_nonneg (x : Q) : 0 <= x * x.
Proof. nra. Qed.

Lemma Qsquare_zero (x : Q) : x * x <= 0 -> x == 0.
Proof. nra. Qed.

Lemma Qsum_squares_nonneg (l : list Q) : 0 <= Qsum (map (fun x => x * x) l).
Proof.
  induction l as [|x l IH]; unfold Qsum in *; simpl; [lra|].
  pose proof (Qsquare_nonneg x). lra.
Qed.

Lemma sse_nonneg xs ys a b : 0 <= sse xs ys a b.
Proof.
  unfold sse.
  rewrite <- (map_map (fun p => snd p - (a * fst p + b)) (fun x => x * x)).
  apply Qsum_squares_nonneg.
Qed.

Ltac unfold_fit :=
  unfold sse, polyfit1, dot, range, Qsum;
  cbn [map seq combine fold_right fst snd length];
  cbv [inject_Z Z.of_nat Pos.of_succ_nat Pos.succ].

(** The residual of any line through six points at 0..5 is the residual of
    the fitted line plus the residual of the difference of the two lines. *)
Lemma sse_split6 y0 y1 y2 y3 y4 y5 a b :
  let ys := [y0; y1; y2; y3; y4; y5] in
  let s := fst (polyfit1 (range 6) ys) in
  let t := snd (polyfit1 (range 6) ys) in
  sse (range 6) ys a b
  == sse (range 6) ys s t + sse (range 6) [0; 0; 0; 0; 0; 0] (s - a) (t - b).
Proof. intros ys s t. subst ys s t. unfold_fit. field. Qed.

Lemma residual_zero u w :
  sse (range 6) [0; 0; 0; 0; 0; 0] u w <= 0 -> u == 0 /\ w == 0.
Proof.
  unfold_fit. intros H.
  pose proof (Qsquare_nonneg (0 - (u * 0 + w))) as S0.
  pose proof (Qsquare_nonneg (0 - (u * 1 + w))) as S1.
  pose proof (Qsquare_nonneg (0 - (u * 2 + w))) as S2.
  pose proof (Qsquare_nonneg (0 - (u * 3 + w))) as S3.
  pose proof (Qsquare_nonneg (0 - (u * 4 + w))) as S4.
  pose proof (Qsquare_nonneg (0 - (u * 5 + w))) as S5.
  assert (Hw : 0 - (u * 0 + w) == 0) by (apply Qsquare_zero; lra).
  assert (Hu : 0 - (u * 1 + w) == 0) by (apply Qsquare_zero; lra).
  split; lra.
Qed.

Lemma length6 {A} (l : list A) :
  length l = 6%nat -> exists a b c d e f, l = [a; b; c; d; e; f].
Proof.
  destruct l as [|a [|b [|c [|d [|e [|f [|g l]]]]]]]; try discriminate.
  intros _. now exists a, b, c, d, e, f.
Qed.

(** C6: at every step of a forecast the growth slope handed to the model is
    0 when the cumulative window holds fewer than 6 points; when it holds at
    least 6 it is the slope of the least-squares line through the window's
    points, oldest first, against the indices 0..len-1: that line has the
    smallest sum of squared residuals, and the slope of every line that has
    it too is the same. *)
Theorem growth_slope_least_squares :
  forall (model : Model) (round : Q -> Z) (r0 : Row) (rest : DataFrame)
         (k : nat) (v : Single.vars) (row : FeatureRow),
    Single.loop model round (County_encoded r0) (Date_max (Date r0) (map Date rest))
      k 1 (Single.seed r0 rest) = Completed v ->
    Single.engineer (County_encoded r0) (Single.months_since_start v + 1)%Z
      (Single.historical_ev v) (Single.cumulative_ev v) = Ok row ->
    let c := Single.cumulative_ev v in
    let xs := range (length c) in
    ((length c < 6)%nat -> row_ev_growth_slope row = 0)
    /\ ((6 <= length c)%nat ->
        row_ev_growth_slope row = fst (polyfit1 xs c)
        /\ (forall a b,
              sse xs c (fst (polyfit1 xs c)) (snd (polyfit1 xs c)) <= sse xs c a b)
        /\ (forall a b,
              (forall a' b', sse xs c a b <= sse xs c a' b') ->
              a == row_ev_growth_slope row)).
Proof.
  intros model round r0 rest k v row Hl Er c xs.
  assert (Hslope : row_ev_growth_slope row = growth_slope c).
  { revert Er. unfold Single.engineer, rbind.
    destruct (neg_index (Single.historical_ev v) 1); [|discriminate].
    destruct (neg_index (Single.historical_ev v) 2); [|discriminate].
    destruct (neg_index (Single.historical_ev v) 3); [|discriminate].
    now intros [= <-]. }
  destruct (loop_completed _ _ _ _ _ _ _ _ Hl) as (_ & _ & _ & Htrim & _).
  destruct (Htrim (seed_trimmed r0 rest)) as [_ Hc]. fold c in Hc.
  rewrite Hslope. unfold growth_slope. split.
  - intros Hlt. destruct (Nat.leb_spec 6 (length c)); [lia|reflexivity].
  - intros Hge. destruct (Nat.leb_spec 6 (length c)); [|lia].
    assert (H6 : length c = 6%nat) by lia.
    rewrite (lastn_all 6 c) by lia. subst xs. rewrite H6.
    destruct (length6 c H6) as (y0 & y1 & y2 & y3 & y4 & y5 & ->).
    split; [reflexivity|]. split.
    + intros a b. rewrite (sse_split6 y0 y1 y2 y3 y4 y5 a b).
      pose proof (sse_nonneg (range 6) [0; 0; 0; 0; 0; 0]
                    (fst (polyfit1 (range 6) [y0; y1; y2; y3; y4; y5]) - a)
                    (snd (polyfit1 (range 6) [y0; y1; y2; y3; y4; y5]) - b)).
      lra.
    + intros a b Hmin.
      specialize (Hmin (fst (polyfit1 (range 6) [y0; y1; y2; y3; y4; y5]))
                       (snd (polyfit1 (range 6) [y0; y1; y2; y3; y4; y5]))).
      rewrite (sse_split6 y0 y1 y2 y3 y4 y5 a b) in Hmin.
      destruct (residual_zero
                  (fst (polyfit1 (range 6) [y0; y1; y2; y3; y4; y5]) - a)
                  (snd (polyfit1 (range 6) [y0; y1; y2; y3; y4; y5]) - b))
        as [Hu _]; lra.
Qed.

Lemma growth_slope_least_squares_witness :
  exists row,
    Single.engineer 7 6 [1; 3; 5; 7; 9; 12] [1; 4; 9; 16; 25; 37] = Ok row
    /\ row_ev_growth_slope row = fst (polyfit1 (range 6) [1; 4; 9; 16; 25; 37])
    /\ row_ev_growth_slope row == 50 # 7.
Proof.
  eexists. split; [vm_compute; reflexivity|]. split.
  - refine (proj1 (proj2
      (growth_slope_least_squares (constant_model (Ok (Finite 4))) round_half_even
         (mkRow "A" (mkTimestamp 2024 1 31) 1 0 7) (tl history6) 0
         (Single.seed (mkRow "A" (mkTimestamp 2024 1 31) 1 0 7) (tl history6))
         _ _ _) _)).
    + reflexivity.
    + vm_compute. reflexivity.
    + simpl. lia.
  - vm_compute. reflexivity.
Defined.

(** ** Failing predictions *)

(** C7, as stated, fails: when the model answers NaN the forecast ends with
    the [ValueError] that [round] raises; the script has no error of its own
    for a failed prediction. *)
Lemma failed_prediction_raises_ValueError :
  failure (constant_model (Ok NaN)
             (mkFeatureRow 3 7 150 120 100 (370 # 3) (Finite (30 # 120))
                (Finite (50 # 100)) 0)) = Some ValueError
  /\ Single.forecast (constant_model (Ok NaN)) round_half_even
       Single.forecast_horizon history3 = Raise ValueError
  /\ Single.forecast (constant_model (Ok NaN)) round_half_even
       Single.forecast_horizon history3 <> Raise PredictorFailure.
Proof. split; [reflexivity|]. split; [reflexivity|discriminate]. Qed.

(** C7 (amended): when, after [k] steps that went through, the model raises
    or answers NaN or an infinity, the loop ends at that step with the
    model's exception, [ValueError] or [OverflowError]; the forecast returns
    no frame at all, no value is put in the place of the failed prediction,
    and at the moment the exception leaves the loop the two windows and the
    rows recorded are those of the [k] steps before. *)
Theorem failed_prediction_aborts :
  forall (model : Model) (round : Q -> Z) (r0 : Row) (rest : DataFrame)
         (n k : nat) (vk : Single.vars) (row : FeatureRow) (e : exn),
    (k < n)%nat ->
    Single.loop model round (County_encoded r0) (Date_max (Date r0) (map Date rest))
      k 1 (Single.seed r0 rest) = Completed vk ->
    Single.engineer (County_encoded r0) (Single.months_since_start vk + 1)%Z
      (Single.historical_ev vk) (Single.cumulative_ev vk) = Ok row ->
    failure (model row) = Some e ->
    Single.forecast model round n (r0 :: rest) = Raise e
    /\ exists v,
         Single.loop model round (County_encoded r0)
           (Date_max (Date r0) (map Date rest)) n 1 (Single.seed r0 rest)
         = Aborted e v
         /\ Single.historical_ev v = Single.historical_ev vk
         /\ Single.cumulative_ev v = Single.cumulative_ev vk
         /\ Single.future_rows v = Single.future_rows vk
         /\ length (Single.future_rows v) = k.
Proof.
  intros model round r0 rest n k vk row e Hk Hl Er Hf.
  set (ld := Date_max (Date r0) (map Date rest)) in *.
  assert (Hn : Single.loop model round (County_encoded r0) ld n 1 (Single.seed r0 rest)
               = Aborted e (Single.mkVars (Single.months_since_start vk + 1)
                              (Single.historical_ev vk) (Single.cumulative_ev vk)
                              (Single.future_rows vk))).
  { replace n with (k + S (n - S k))%nat by lia.
    rewrite loop_app, Hl. cbn [Single.loop].
    now rewrite (body_failure model round _ ld (1 + k) vk row e Er Hf). }
  split.
  - unfold Single.forecast. fold ld. now rewrite Hn.
  - eexists. split; [exact Hn|]. cbn. repeat split.
    destruct (loop_completed _ _ _ _ _ _ _ _ Hl) as (Hlen & Hrows & _).
    rewrite Hrows. simpl. now apply recorded_length.
Qed.

Lemma failed_prediction_aborts_witness :
  Single.forecast (constant_model (Raise "TimeoutError"%string)) round_half_even 36
    history3 = Raise "TimeoutError"%string.
Proof.
  refine (proj1 (failed_prediction_aborts
    (constant_model (Raise "TimeoutError"%string)) round_half_even
    (mkRow "A" (mkTimestamp 2024 1 31) 100 0 7) (tl history3) 36 0
    (Single.seed (mkRow "A" (mkTimestamp 2024 1 31) 100 0 7) (tl history3))
    (mkFeatureRow 3 7 150 120 100 (370 # 3) (Finite (30 # 120)) (Finite (50 # 100)) 0)
    "TimeoutError"%string _ _ _ _)).
  - lia.
  - reflexivity.
  - reflexivity.
  - reflexivity.
Defined.

(** ** Rounding *)

Section Rounding.

Variable model : Model.
Variables round1 round2 : Q -> Z.
Variable county_code : Z.
Variable latest_date : Timestamp.

Lemma body_chain i v1 v2 :
  chain v1 = chain v2 ->
  outcome_map chain (Single.body model round1 county_code latest_date i v1)
  = outcome_map chain (Single.body model round2 county_code latest_date i v2).
Proof.
  destruct v1 as [m1 h1 c1 f1], v2 as [m2 h2 c2 f2]. unfold chain. simpl.
  intros [= -> -> ->]. unfold Single.body. simpl.
  destruct (Single.engineer _ _ _ _) as [row|]; [|reflexivity].
  destruct (model row) as [[p| | |]|]; try reflexivity.
  destruct (neg_index c2 1); reflexivity.
Qed.

Lemma loop_chain n : forall i v1 v2,
  chain v1 = chain v2 ->
  Single.trace model round1 county_code latest_date n i v1
  = Single.trace model round2 county_code latest_date n i v2
  /\ outcome_map chain (Single.loop model round1 county_code latest_date n i v1)
     = outcome_map chain (Single.loop model round2 county_code latest_date n i v2).
Proof.
  induction n as [|n IH]; intros i v1 v2 Hc.
  - simpl. now rewrite Hc.
  - pose proof (body_chain i v1 v2 Hc) as Hb.
    cbn [Single.trace Single.loop].
    assert (He : Single.engineer county_code (Single.months_since_start v1 + 1)
                   (Single.historical_ev v1) (Single.cumulative_ev v1)
                 = Single.engineer county_code (Single.months_since_start v2 + 1)
                     (Single.historical_ev v2) (Single.cumulative_ev v2)).
    { unfold chain in Hc. now injection Hc as -> -> ->. }
    rewrite He.
    destruct (Single.body model round1 _ _ i v1) as [v1'|e1 v1'],
             (Single.body model round2 _ _ i v2) as [v2'|e2 v2'];
      simpl in Hb; try discriminate.
    + assert (Hc' : chain v1' = chain v2') by congruence.
      destruct (IH (S i) v1' v2' Hc') as [Ht Ho]. now rewrite Ht, Ho.
    + destruct (Single.engineer _ _ _ _); now rewrite ?Hb.
Qed.

End Rounding.

(** C9: the rounding applied to the recorded values plays no part in the
    chain.  With any two roundings in its place, a run from the same
    variables hands the same rows of features to the model at every step and
    leaves the same period index, raw window and cumulative window (and, if
    it ends early, ends at the same step with the same exception). *)
Theorem rounding_isolated :
  forall (model : Model) (round1 round2 : Q -> Z) (county_code : Z)
         (latest_date : Timestamp) (n i : nat) (v : Single.vars),
    Single.trace model round1 county_code latest_date n i v
    = Single.trace model round2 county_code latest_date n i v
    /\ outcome_map chain (Single.loop model round1 county_code latest_date n i v)
       = outcome_map chain (Single.loop model round2 county_code latest_date n i v).
Proof. intros. now apply loop_chain. Qed.

(** ** Unchecked predictions *)

(** C10: a finite prediction is taken as it is: it becomes the newest
    element of the raw window and is added to the previous total, which
    becomes the newest element of the cumulative window.  A model that
    answers -5 on a history of non-negative integers therefore gives negative
    forecast values and a stitched cumulative series that goes down. *)
Theorem predictions_taken_unchecked :
  (forall (model : Model) (round : Q -> Z) (county_code : Z) (latest_date : Timestamp)
          (i : nat) (v : Single.vars) (row : FeatureRow) (p c : Q),
      Single.engineer county_code (Single.months_since_start v + 1)%Z
        (Single.historical_ev v) (Single.cumulative_ev v) = Ok row ->
      model row = Ok (Finite p) ->
      neg_index (Single.cumulative_ev v) 1 = Ok c ->
      exists v',
        Single.body model round county_code latest_date i v = Completed v'
        /\ Single.historical_ev v' = lastn 6 (Single.historical_ev v ++ [p])
        /\ neg_index (Single.historical_ev v') 1 = Ok p
        /\ Single.cumulative_ev v' = lastn 6 (Single.cumulative_ev v ++ [c + p])
        /\ neg_index (Single.cumulative_ev v') 1 = Ok (c + p))
  /\ Forall (fun r => exists z : Z, (0 <= z)%Z /\ EV_Total r = inject_Z z) history3
  /\ exists out,
       Single.forecast (constant_model (Ok (Finite (-5)))) round_half_even 3 history3
       = Ok out
       /\ map fc_Predicted_EV_Total (Single.forecast_df out) = [-5; -5; -5]%Z
       /\ neg_index (cumsum (map EV_Total history3)) 1 = Ok 370
       /\ map fc_Cumulative_EV (Single.forecast_df out) = [365; 360; 355].
Proof.
  split.
  - intros model round county_code latest_date i v row p c Er Em Ec.
    exists (advance round latest_date i v p c).
    split; [now apply (body_advance model round county_code latest_date i v row)|].
    cbn. repeat split; apply neg_index_lastn_snoc.
  - split.
    + repeat constructor; [exists 100%Z|exists 120%Z|exists 150%Z]; split;
        (lia || reflexivity).
    + eexists. split; [vm_compute; reflexivity|].
      repeat split; vm_compute; reflexivity.
Qed.

Lemma predictions_taken_unchecked_witness :
  exists v',
    Single.body (constant_model (Ok (Finite (-5)))) round_half_even 7
      (mkTimestamp 2024 3 31) 1
      (Single.seed (mkRow "A" (mkTimestamp 2024 1 31) 100 0 7) (tl history3))
    = Completed v'
    /\ neg_index (Single.historical_ev v') 1 = Ok (-5 # 1).
Proof.
  destruct (proj1 predictions_taken_unchecked
              (constant_model (Ok (Finite (-5)))) round_half_even 7%Z
              (mkTimestamp 2024 3 31) 1%nat
              (Single.seed (mkRow "A" (mkTimestamp 2024 1 31) 100 0 7) (tl history3))
              (mkFeatureRow 3 7 150 120 100 (370 # 3) (Finite (30 # 120))
                 (Finite (50 # 100)) 0)
              (-5 # 1) 370)
    as (v' & Hb & _ & Hp & _).
  - reflexivity.
  - reflexivity.
  - reflexivity.
  - exists v'. split; assumption.
Defined.

(** ** The two loops *)


Section TwoLoops.

Variable model : Model.
Variable round : Q -> Z.

Lemma body_same cty_code last_date i v :
  outcome_map as_single (Multi.body model round cty_code last_date i v)
  = Single.body model round cty_code last_date i (as_single v).
Proof.
  destruct v as [m h c f].
  unfold Multi.body, Single.body, Single.engineer, rbind, pct_change, growth_slope,
    as_single.
  cbn [Multi.months_since Multi.hist_ev Multi.cum_ev Multi.future_rows_cty
       Single.months_since_start Single.historical_ev Single.cumulative_ev
       Single.future_rows].
  destruct (neg_index h 1) as [lag1|]; [|reflexivity].
  destruct (neg_index h 2) as [lag2|]; [|reflexivity].
  destruct (neg_index h 3) as [lag3|]; [|reflexivity].
  destruct (model _) as [[p| | |]|]; try reflexivity.
  destruct (neg_index c 1); reflexivity.
Qed.

Lemma loop_same cty_code last_date n : forall i v,
  outcome_map as_single (Multi.loop model round cty_code last_date n i v)
  = Single.loop model round cty_code last_date n i (as_single v).
Proof.
  induction n as [|n IH]; intros i v; [reflexivity|].
  cbn [Multi.loop Single.loop]. rewrite <- body_same.
  destruct (Multi.body model round cty_code last_date i v) as [v'|e v']; simpl.
  - apply IH.
  - reflexivity.
Qed.

(** One iteration of the comparison computes what the single-county forecast
    computes on the county's frame. *)
Lemma region_same n df cty :
  Multi.region model round n df cty
  = rmap (as_region cty) (Single.forecast model round n (select df cty)).
Proof.
  unfold Multi.region, Single.forecast.
  destruct (select df cty) as [|r0 rest]; [reflexivity|].
  pose proof (loop_same (County_encoded r0) (Date_max (Date r0) (map Date rest)) n 1
                (Multi.mkVars
                   (col_max (Months_since_start r0) (map Months_since_start rest))
                   (lastn 6 (map EV_Total (r0 :: rest)))
                   (cumsum (lastn 6 (map EV_Total (r0 :: rest)))) [])) as Hl.
  change (as_single (Multi.mkVars _ _ _ _)) with (Single.seed r0 rest) in Hl.
  rewrite <- Hl.
  destruct (Multi.loop _ _ _ _ _ _ _) as [v|e v]; [|reflexivity].
  cbn [outcome_map]. unfold as_single at 1 2.
  cbn [Single.future_rows].
  unfold rmap, rbind.
  destruct (column_Predicted_EV_Total (Multi.future_rows_cty v)); [|reflexivity].
  destruct (neg_index _ 1); [|reflexivity].
  unfold as_region. cbn [Single.forecast_df Single.combined].
  rewrite map_app, !map_map. reflexivity.
Qed.

End TwoLoops.

(** The cap of lines 147-148: when four counties are selected the
    comparison computes nothing, though the forecast of each of them alone
    succeeds. *)
Lemma comparison_refuses_four_counties :
  Multi.comparison (constant_model (Ok (Finite 160))) four_counties
    ["A"; "B"; "C"; "D"]%string = Ok None
  /\ forall cty, In cty ["A"; "B"; "C"; "D"]%string ->
       exists out,
         Single.run (constant_model (Ok (Finite 160))) four_counties cty
         = Ok (Some out).
Proof.
  split; [reflexivity|].
  intros cty [<-|[<-|[<-|[<-|[]]]]]; eexists; vm_compute; reflexivity.
Qed.



(** * Further properties *)

(** ** More on lists *)

Section MoreListFacts.

Context {A : Type}.
Implicit Types (l : list A) (n k : nat).

Lemma lastn_app n l1 l2 :
  lastn n (l1 ++ l2) = lastn (n - length l2) l1 ++ lastn n l2.
Proof.
  unfold lastn. rewrite length_app, skipn_app. f_equal.
  - destruct (Nat.le_gt_cases (length l2) n).
    + f_equal. lia.
    + rewrite !skipn_all2 by lia. reflexivity.
  - f_equal. lia.
Qed.

Lemma lastn_lastn m n l : (m <= n)%nat -> lastn m (lastn n l) = lastn m l.
Proof.
  intros H. unfold lastn. rewrite skipn_skipn, length_skipn. f_equal. lia.
Qed.

(** Trimming before an append does not change the trimmed result. *)
Lemma lastn_app_lastn n l1 l2 : lastn n (lastn n l1 ++ l2) = lastn n (l1 ++ l2).
Proof. rewrite !lastn_app. f_equal. apply lastn_lastn. lia. Qed.

Lemma neg_index_lastn n l k :
  (k <= n)%nat -> neg_index (lastn n l) k = neg_index l k.
Proof.
  intros H. unfold neg_index. rewrite lastn_length.
  destruct (Nat.leb_spec k (length l)).
  - destruct (Nat.leb_spec k (Nat.min n (length l))); [|lia].
    unfold lastn. rewrite nth_error_skipn.
    now replace (length l - n + (Nat.min n (length l) - k))%nat
      with (length l - k)%nat by lia.
  - destruct (Nat.leb_spec k (Nat.min n (length l))); [lia|reflexivity].
Qed.

Lemma neg_index_snoc_S l x k :
  (1 <= k)%nat -> neg_index (l ++ [x]) (S k) = neg_index l k.
Proof.
  intros H. unfold neg_index. rewrite length_app. change (length [x]) with 1%nat.
  destruct (Nat.leb_spec k (length l)).
  - destruct (Nat.leb_spec (S k) (length l + 1)); [|lia].
    rewrite nth_error_app1 by lia.
    now replace (length l + 1 - S k)%nat with (length l - k)%nat by lia.
  - destruct (Nat.leb_spec (S k) (length l + 1)); [lia|reflexivity].
Qed.

(** The element [k] places behind the newest one in a window that has just
    been extended and trimmed is the element [k - 1] places behind the newest
    one before. *)
Lemma neg_index_window_shift n l x k :
  (1 <= k <= n)%nat ->
  neg_index (lastn (S n) (l ++ [x])) (S k) = neg_index l k.
Proof.
  intros H. rewrite lastn_snoc, neg_index_snoc_S by lia.
  apply neg_index_lastn. lia.
Qed.

Lemma neg_index_last l d : l <> [] -> neg_index l 1 = Ok (last l d).
Proof.
  intros H. destruct (exists_last H) as (l' & x & ->).
  now rewrite neg_index_snoc, last_last.
Qed.

End MoreListFacts.

Lemma cumsum_from_app acc l1 l2 :
  cumsum_from acc (l1 ++ l2)
  = cumsum_from acc l1 ++ cumsum_from (last (cumsum_from acc l1) acc) l2.
Proof.
  revert acc. induction l1 as [|x l1 IH]; intros acc; [reflexivity|].
  cbn [app cumsum_from]. rewrite IH. f_equal. f_equal. f_equal.
  destruct l1 as [|y l1]; [reflexivity|].
  cbn [cumsum_from]. symmetry.
  exact (last_cons_default _ _ _ _).
Qed.

Lemma Zcumsum_from_app acc l1 l2 :
  Zcumsum_from acc (l1 ++ l2)
  = Zcumsum_from acc l1 ++ Zcumsum_from (last (Zcumsum_from acc l1) acc) l2.
Proof.
  revert acc. induction l1 as [|x l1 IH]; intros acc; [reflexivity|].
  cbn [app Zcumsum_from]. rewrite IH. f_equal. f_equal. f_equal.
  destruct l1 as [|y l1]; [reflexivity|].
  cbn [Zcumsum_from]. symmetry.
  exact (last_cons_default _ _ _ _).
Qed.

(** ** The windows and the rows of features along a run *)

Section RunFacts.

Variable model : Model.
Variable round : Q -> Z.
Variable county_code : Z.
Variable latest_date : Timestamp.

Local Abbreviation sbody := (Single.body model round county_code latest_date).
Local Abbreviation sloop := (Single.loop model round county_code latest_date).
Local Abbreviation strace := (Single.trace model round county_code latest_date).

Lemma engineer_inv m h c row :
  Single.engineer county_code m h c = Ok row ->
  exists lag1 lag2 lag3,
    neg_index h 1 = Ok lag1 /\ neg_index h 2 = Ok lag2 /\ neg_index h 3 = Ok lag3
    /\ row = mkFeatureRow m county_code lag1 lag2 lag3 (np_mean [lag1; lag2; lag3])
               (pct_change lag1 lag2) (pct_change lag1 lag3) (growth_slope c).
Proof.
  unfold Single.engineer, rbind.
  destruct (neg_index h 1) as [lag1|]; [|discriminate].
  destruct (neg_index h 2) as [lag2|]; [|discriminate].
  destruct (neg_index h 3) as [lag3|]; [|discriminate].
  intros [= <-]. now exists lag1, lag2, lag3.
Qed.

Lemma loop_windows k : forall i v v' c0,
  sloop k i v = Completed v' ->
  trimmed v ->
  neg_index (Single.cumulative_ev v) 1 = Ok c0 ->
  Single.historical_ev v'
  = lastn 6 (Single.historical_ev v ++ predictions (strace k i v))
  /\ Single.cumulative_ev v'
     = lastn 6 (Single.cumulative_ev v ++ cumsum_from c0 (predictions (strace k i v))).
Proof.
  induction k as [|k IH]; intros i v v' c0 H [Hh Hc] Hc0.
  - simpl in H. injection H as <-. simpl. rewrite !app_nil_r.
    now rewrite !lastn_all.
  - cbn [Single.loop] in H.
    destruct (sbody i v) as [v1|] eqn:Eb; [|discriminate].
    destruct (body_completed _ _ _ _ _ _ _ Eb) as (row & p & c & Er & Em & Ec & ->).
    rewrite (trace_step model round county_code latest_date k i v row p c Er Em Ec).
    cbn [predictions cumsum_from].
    assert (c = c0) as -> by congruence.
    destruct (IH (S i) (advance round latest_date i v p c0) v' (c0 + p) H) as [H1 H2].
    { apply advance_trimmed. }
    { apply neg_index_lastn_snoc. }
    rewrite H1, H2. cbn [advance Single.historical_ev Single.cumulative_ev].
    rewrite !lastn_app_lastn, <- !app_assoc. split; reflexivity.
Qed.

Lemma trace_rows n : forall i v k row answer,
  nth_error (strace n i v) k = Some (row, answer) ->
  row_months_since_start row = (Single.months_since_start v + Z.of_nat k + 1)%Z
  /\ row_county_encoded row = county_code
  /\ answer = model row.
Proof.
  induction n as [|n IH]; intros i v k row answer H; [now destruct k|].
  cbn [Single.trace] in H.
  destruct (Single.engineer _ _ _ _) as [row0|] eqn:Er; [|now destruct k].
  destruct k as [|k].
  - injection H as <- <-.
    destruct (engineer_inv _ _ _ _ Er) as (l1 & l2 & l3 & _ & _ & _ & ->).
    simpl. repeat split. lia.
  - cbn [nth_error] in H.
    destruct (sbody i v) as [v1|] eqn:Eb; [|now destruct k].
    destruct (body_completed _ _ _ _ _ _ _ Eb) as (r & p & c & _ & _ & _ & ->).
    destruct (IH _ _ _ _ _ H) as (Hm & Hc & Ha).
    cbn [advance Single.months_since_start] in Hm. repeat split; try assumption. lia.
Qed.

Lemma trace_lags n : forall i v k row p row' answer',
  nth_error (strace n i v) k = Some (row, Ok (Finite p)) ->
  nth_error (strace n i v) (S k) = Some (row', answer') ->
  ev_total_lag1 row' = p
  /\ ev_total_lag2 row' = ev_total_lag1 row
  /\ ev_total_lag3 row' = ev_total_lag2 row.
Proof.
  induction n as [|n IH]; intros i v k row p row' answer' H H'; [now destruct k|].
  cbn [Single.trace] in H, H'.
  destruct (Single.engineer _ _ _ _) as [row0|] eqn:Er; [|now destruct k].
  cbn [nth_error] in H'.
  destruct (sbody i v) as [v1|] eqn:Eb; [|now destruct k].
  destruct k as [|k]; [|exact (IH _ _ _ _ _ _ _ H H')].
  cbn [nth_error] in H. injection H as <- Em.
  destruct (body_completed _ _ _ _ _ _ _ Eb) as (r & p1 & c & Er1 & Em1 & _ & ->).
  assert (r = row0) as -> by congruence.
  assert (p1 = p) as -> by congruence.
  destruct n as [|n]; [discriminate|]. cbn [Single.trace nth_error] in H'.
  destruct (Single.engineer county_code
              (Single.months_since_start (advance round latest_date i v p c) + 1)
              _ _) as [row1|] eqn:Er'; [|discriminate].
  injection H' as <- _.
  cbn [advance Single.months_since_start Single.historical_ev
       Single.cumulative_ev] in Er'.
  destruct (engineer_inv _ _ _ _ Er) as (a1 & a2 & a3 & Ha1 & Ha2 & _ & ->).
  destruct (engineer_inv _ _ _ _ Er') as (b1 & b2 & b3 & Hb1 & Hb2 & Hb3 & ->).
  rewrite neg_index_lastn_snoc in Hb1.
  rewrite (neg_index_window_shift 5) in Hb2 by lia.
  rewrite (neg_index_window_shift 5) in Hb3 by lia.
  cbn. repeat split; congruence.
Qed.

End RunFacts.

Lemma col_max_ge r0 rest :
  (r0 <= col_max r0 rest)%Z /\ Forall (fun x => (x <= col_max r0 rest)%Z) rest.
Proof.
  unfold col_max. revert r0. induction rest as [|x rest IH]; intros r0; simpl.
  - split; [lia|constructor].
  - destruct (IH (Z.max r0 x)) as [H1 H2]. split; [lia|].
    constructor; [lia|assumption].
Qed.

(** X1: after any number of steps the raw window holds the last 6 values of
    the historical series followed by the unrounded predictions, and the
    cumulative window the last 6 running totals of the last 6 historical
    values followed by the predictions. *)
Theorem windows_hold_last_six :
  forall (model : Model) (round : Q -> Z) (r0 : Row) (rest : DataFrame)
         (k : nat) (v : Single.vars),
    Single.loop model round (County_encoded r0) (Date_max (Date r0) (map Date rest))
      k 1 (Single.seed r0 rest) = Completed v ->
    let values := map EV_Total (r0 :: rest) in
    let preds :=
      predictions (Single.trace model round (County_encoded r0)
                     (Date_max (Date r0) (map Date rest)) k 1 (Single.seed r0 rest)) in
    Single.historical_ev v = lastn 6 (values ++ preds)
    /\ Single.cumulative_ev v = lastn 6 (cumsum (lastn 6 values ++ preds)).
Proof.
  intros model round r0 rest k v H values preds.
  assert (Hne : Single.cumulative_ev (Single.seed r0 rest) <> []).
  { intros E. apply (f_equal (@length _)) in E.
    rewrite (proj2 (seed_length r0 rest)) in E. simpl in E. lia. }
  destruct (loop_windows model round _ _ k 1 _ v _ H (seed_trimmed r0 rest)
              (neg_index_last _ 0 Hne)) as [H1 H2].
  fold preds in H1, H2. split.
  - rewrite H1. apply lastn_app_lastn.
  - rewrite H2. unfold cumsum. now rewrite cumsum_from_app.
Qed.

Lemma windows_hold_last_six_witness :
  exists v,
    Single.loop (constant_model (Ok (Finite 4))) round_half_even 7
      (mkTimestamp 2024 6 30) 2 1
      (Single.seed (mkRow "A" (mkTimestamp 2024 1 31) 1 0 7) (tl history6))
    = Completed v
    /\ Single.historical_ev v = [5; 7; 9; 12; 4; 4].
Proof.
  eexists. split; [vm_compute; reflexivity|].
  refine (proj1 (windows_hold_last_six (constant_model (Ok (Finite 4)))
                   round_half_even (mkRow "A" (mkTimestamp 2024 1 31) 1 0 7)
                   (tl history6) 2 _ _)).
  vm_compute. reflexivity.
Defined.

(** X2: the row handed to the model at step [k] (from 0) carries the county
    code of the frame's first row and the period index [max + k + 1], where
    [max] is the largest 'months_since_start' of the history: it is beyond
    every historical period index and grows by 1 per step. *)
Theorem period_index_advances :
  forall (model : Model) (round : Q -> Z) (r0 : Row) (rest : DataFrame)
         (n k : nat) (row : FeatureRow) (answer : result float64),
    nth_error (Single.trace model round (County_encoded r0)
                 (Date_max (Date r0) (map Date rest)) n 1 (Single.seed r0 rest)) k
    = Some (row, answer) ->
    row_county_encoded row = County_encoded r0
    /\ row_months_since_start row
       = (col_max (Months_since_start r0) (map Months_since_start rest)
          + Z.of_nat k + 1)%Z
    /\ Forall (fun r => (Months_since_start r < row_months_since_start row)%Z)
         (r0 :: rest).
Proof.
  intros model round r0 rest n k row answer H.
  destruct (trace_rows _ _ _ _ _ _ _ _ _ _ H) as (Hm & Hc & _).
  cbn [Single.seed Single.months_since_start] in Hm.
  split; [assumption|]. split; [assumption|].
  destruct (col_max_ge (Months_since_start r0) (map Months_since_start rest))
    as [H0 Hrest].
  rewrite Hm. constructor; [lia|].
  rewrite Forall_map in Hrest. eapply Forall_impl; [|exact Hrest].
  simpl. intros. lia.
Qed.

Lemma period_index_advances_witness :
  row_months_since_start
    (mkFeatureRow 3 7 150 120 100 (370 # 3) (Finite (30 # 120)) (Finite (50 # 100)) 0)
  = 3%Z.
Proof.
  refine (proj1 (proj2 (period_index_advances (constant_model (Ok (Finite 160)))
    round_half_even (mkRow "A" (mkTimestamp 2024 1 31) 100 0 7) (tl history3)
    1 0 _ (Ok (Finite 160)) _))).
  reflexivity.
Defined.

(** X3: the lags of the first step are the last three values of the
    historical series, the most recent first. *)
Theorem first_lags_from_history :
  forall (model : Model) (round : Q -> Z) (r0 : Row) (rest : DataFrame)
         (n : nat) (row : FeatureRow) (answer : result float64),
    nth_error (Single.trace model round (County_encoded r0)
                 (Date_max (Date r0) (map Date rest)) n 1 (Single.seed r0 rest)) 0
    = Some (row, answer) ->
    neg_index (map EV_Total (r0 :: rest)) 1 = Ok (ev_total_lag1 row)
    /\ neg_index (map EV_Total (r0 :: rest)) 2 = Ok (ev_total_lag2 row)
    /\ neg_index (map EV_Total (r0 :: rest)) 3 = Ok (ev_total_lag3 row).
Proof.
  intros model round r0 rest n row answer H.
  destruct n as [|n]; [discriminate|]. cbn [Single.trace] in H.
  destruct (Single.engineer _ _ _ _) as [row0|] eqn:Er; [|discriminate].
  injection H as <- _.
  destruct (engineer_inv _ _ _ _ _ Er) as (l1 & l2 & l3 & H1 & H2 & H3 & ->).
  cbn [Single.seed Single.historical_ev] in H1, H2, H3.
  rewrite neg_index_lastn in H1, H2, H3 by lia. cbn. auto.
Qed.

Lemma first_lags_from_history_witness :
  neg_index (map EV_Total history3) 1 = Ok 150.
Proof.
  refine (proj1 (first_lags_from_history (constant_model (Ok (Finite 160)))
    round_half_even (mkRow "A" (mkTimestamp 2024 1 31) 100 0 7) (tl history3) 1
    (mkFeatureRow 3 7 150 120 100 (370 # 3) (Finite (30 # 120)) (Finite (50 # 100)) 0)
    (Ok (Finite 160)) _)).
  reflexivity.
Defined.

(** X4: the forecast feeds on its own output: at each later step lag1 is
    the unrounded prediction of the step before, lag2 the lag1 and lag3 the
    lag2 of the step before. *)
Theorem lags_shift_by_one_step :
  forall (model : Model) (round : Q -> Z) (county_code : Z) (latest_date : Timestamp)
         (n i k : nat) (v : Single.vars) (row row' : FeatureRow) (p : Q)
         (answer' : result float64),
    nth_error (Single.trace model round county_code latest_date n i v) k
    = Some (row, Ok (Finite p)) ->
    nth_error (Single.trace model round county_code latest_date n i v) (S k)
    = Some (row', answer') ->
    ev_total_lag1 row' = p
    /\ ev_total_lag2 row' = ev_total_lag1 row
    /\ ev_total_lag3 row' = ev_total_lag2 row.
Proof. intros. eapply trace_lags; eassumption. Qed.

Lemma lags_shift_by_one_step_witness :
  ev_total_lag1
    (mkFeatureRow 4 7 (802 # 5) 150 120 (2152 # 15) (Finite (52 # 750))
       (Finite (202 # 600)) 0)
  = 802 # 5.
Proof.
  refine (proj1 (lags_shift_by_one_step (constant_model (Ok (Finite (802 # 5))))
    round_half_even 7 (mkTimestamp 2024 3 31) 2 1 0
    (Single.seed (mkRow "A" (mkTimestamp 2024 1 31) 100 0 7) (tl history3))
    (mkFeatureRow 3 7 150 120 100 (370 # 3) (Finite (30 # 120)) (Finite (50 # 100)) 0)
    _ (802 # 5) (Ok (Finite (802 # 5))) _ _)).
  - reflexivity.
  - vm_compute. reflexivity.
Defined.

(** ** More on the growth slope *)

Lemma lastn_map {A B} (f : A -> B) n (l : list A) :
  lastn n (map f l) = map f (lastn n l).
Proof. unfold lastn. now rewrite length_map, skipn_map. Qed.

(** The growth slope does not depend on the level of the cumulative totals:
    adding one constant to every value of the window leaves it unchanged. *)
Lemma growth_slope_ignores_offset :
  forall (c : list Q) (offset : Q),
    growth_slope (map (fun y => y + offset) c) == growth_slope c.
Proof.
  intros c K. unfold growth_slope. rewrite length_map.
  destruct (Nat.leb_spec 6 (length c)) as [H|H]; [|reflexivity].
  rewrite lastn_map.
  destruct (length6 (lastn 6 c)) as (y0 & y1 & y2 & y3 & y4 & y5 & ->).
  { rewrite lastn_length. lia. }
  cbn [map]. unfold_fit. field.
Qed.

(** X6: when the last six cumulative totals grow by the same amount [d]
    from each month to the next, the growth slope is [d]. *)
Theorem growth_slope_of_steady_growth :
  forall (older : list Q) (y0 y1 y2 y3 y4 y5 d : Q),
    y1 - y0 == d -> y2 - y1 == d -> y3 - y2 == d -> y4 - y3 == d -> y5 - y4 == d ->
    growth_slope (older ++ [y0; y1; y2; y3; y4; y5]) == d.
Proof.
  intros older y0 y1 y2 y3 y4 y5 d H1 H2 H3 H4 H5. unfold growth_slope.
  rewrite length_app. cbn [length].
  destruct (Nat.leb_spec 6 (length older + 6)) as [_|H]; [|lia].
  rewrite lastn_app. cbn [length]. rewrite (lastn_all 6 [y0; y1; y2; y3; y4; y5]) by (simpl; lia).
  replace (lastn (6 - 6) older) with (@nil Q)
    by (unfold lastn; rewrite Nat.sub_0_r, skipn_all; reflexivity).
  cbn [app]. unfold_fit.
  setoid_replace y1 with (y0 + d) by lra.
  setoid_replace y2 with (y0 + 2 * d) by lra.
  setoid_replace y3 with (y0 + 3 * d) by lra.
  setoid_replace y4 with (y0 + 4 * d) by lra.
  setoid_replace y5 with (y0 + 5 * d) by lra.
  field.
Qed.

Lemma growth_slope_of_steady_growth_witness :
  growth_slope [3; 10; 12; 14; 16; 18; 20] == 2.
Proof.
  apply (growth_slope_of_steady_growth [3] 10 12 14 16 18 20 2); reflexivity.
Defined.

(** ** What can end a forecast *)

Lemma loop_aborted_cause model round county_code latest_date n : forall i v e v',
  ready v ->
  Single.loop model round county_code latest_date n i v = Aborted e v' ->
  exists k vk row,
    (k < n)%nat
    /\ Single.loop model round county_code latest_date k i v = Completed vk
    /\ Single.engineer county_code (Single.months_since_start vk + 1)%Z
         (Single.historical_ev vk) (Single.cumulative_ev vk) = Ok row
    /\ failure (model row) = Some e.
Proof.
  induction n as [|n IH]; intros i v e v' Hr H; [discriminate|].
  destruct (engineer_ok county_code (Single.months_since_start v + 1)%Z
              (Single.historical_ev v) (Single.cumulative_ev v) (proj1 Hr))
    as [row Er].
  destruct (failure (model row)) as [e0|] eqn:Ef.
  - cbn [Single.loop] in H.
    rewrite (body_failure model round county_code latest_date i v row e0 Er Ef) in H.
    injection H as <- _. exists 0%nat, v, row. repeat split; auto. lia.
  - destruct (model row) as [[p| | |]|] eqn:Em; try discriminate.
    destruct (neg_index_in_range (Single.cumulative_ev v) 1) as [c Ec];
      [destruct Hr; lia|].
    pose proof (body_advance model round county_code latest_date i v row p c
                  Er Em Ec) as Eb.
    cbn [Single.loop] in H. rewrite Eb in H.
    destruct (IH _ _ _ _ (advance_ready round latest_date i v p c Hr) H)
      as (k & vk & rowk & Hk & Hl & Erk & Efk).
    exists (S k), vk, rowk. repeat split; try assumption; [lia|].
    cbn [Single.loop]. now rewrite Eb.
Qed.

(** X7: with a history of at least 3 points and a horizon of at least one
    step, the only way a forecast can fail is a failed prediction: if it
    raises [e], then at some step, after the steps before it went through, the
    model raised [e] or returned a value on which [round] raises [e]. *)
Theorem forecast_fails_only_on_prediction :
  forall (model : Model) (round : Q -> Z) (n : nat) (r0 : Row) (rest : DataFrame)
         (e : exn),
    (3 <= length (r0 :: rest))%nat ->
    (1 <= n)%nat ->
    Single.forecast model round n (r0 :: rest) = Raise e ->
    exists k vk row,
      (k < n)%nat
      /\ Single.loop model round (County_encoded r0)
           (Date_max (Date r0) (map Date rest)) k 1 (Single.seed r0 rest)
         = Completed vk
      /\ Single.engineer (County_encoded r0) (Single.months_since_start vk + 1)%Z
           (Single.historical_ev vk) (Single.cumulative_ev vk) = Ok row
      /\ failure (model row) = Some e.
Proof.
  intros model round n r0 rest e Hlen Hn H.
  destruct (Single.loop model round (County_encoded r0)
              (Date_max (Date r0) (map Date rest)) n 1 (Single.seed r0 rest))
    as [v|e' v] eqn:El.
  - destruct (forecast_completes model round n r0 rest v El Hn) as (out & _ & Ho & _).
    congruence.
  - assert (e' = e) as ->.
    { unfold Single.forecast in H. rewrite El in H. congruence. }
    eapply loop_aborted_cause; [|exact El].
    apply seed_ready. simpl in Hlen. lia.
Qed.

Lemma forecast_fails_only_on_prediction_witness :
  exists k vk row,
    (k < 36)%nat
    /\ Single.loop (constant_model (Ok NaN)) round_half_even 7
         (mkTimestamp 2024 3 31) k 1
         (Single.seed (mkRow "A" (mkTimestamp 2024 1 31) 100 0 7) (tl history3))
       = Completed vk
    /\ Single.engineer 7 (Single.months_since_start vk + 1)%Z
         (Single.historical_ev vk) (Single.cumulative_ev vk) = Ok row
    /\ failure (constant_model (Ok NaN) row) = Some ValueError.
Proof.
  apply (forecast_fails_only_on_prediction (constant_model (Ok NaN)) round_half_even
           36 (mkRow "A" (mkTimestamp 2024 1 31) 100 0 7) (tl history3) ValueError).
  - simpl. lia.
  - lia.
  - reflexivity.
Defined.

(** ** Longer horizons *)

Lemma stitched_app v1 v2 last more :
  Single.future_rows v2 = Single.future_rows v1 ++ more ->
  firstn (length (Single.future_rows v1)) (stitched v2 last) = stitched v1 last.
Proof.
  intros E. unfold stitched, with_Cumulative_EV. rewrite E.
  rewrite firstn_map, combine_firstn. f_equal. f_equal.
  - now rewrite firstn_app, Nat.sub_diag, firstn_all, app_nil_r.
  - rewrite firstn_map. f_equal. rewrite map_app. unfold Zcumsum.
    rewrite Zcumsum_from_app, firstn_app.
    rewrite Zcumsum_from_length, length_map, Nat.sub_diag. cbn [firstn].
    rewrite app_nil_r. apply firstn_all2.
    now rewrite Zcumsum_from_length, length_map.
Qed.

(** X8: a longer horizon does not change what is forecast for the months of
    a shorter one: as long as the longer forecast stays in the range of the
    64-bit integers, the first [n] rows of the forecast over [n + m] months
    (dates, rounded values and stitched totals) are the rows of the forecast
    over [n] months. *)
Theorem longer_horizon_extends_forecast :
  forall (model : Model) (round : Q -> Z) (n m : nat) (county_df : DataFrame)
         (out1 out2 : Single.output),
    Single.forecast model round n county_df = Ok out1 ->
    Single.forecast model round (n + m) county_df = Ok out2 ->
    within_int64 county_df (Single.forecast_df out2) = true ->
    firstn n (Single.forecast_df out2) = Single.forecast_df out1.
Proof.
  intros model round n m [|r0 rest] out1 out2 H1 H2 _; [discriminate|].
  destruct (forecast_returns _ _ _ _ _ _ H1) as (v1 & last1 & Hl1 & El1 & _ & ->).
  destruct (forecast_returns _ _ _ _ _ _ H2) as (v2 & last2 & Hl2 & El2 & _ & ->).
  assert (last2 = last1) as -> by congruence.
  rewrite loop_app, Hl1 in Hl2.
  destruct (loop_completed _ _ _ _ _ _ _ _ Hl1) as (Hlen & Hrows & _).
  destruct (loop_completed _ _ _ _ _ _ _ _ Hl2) as (_ & Hrows2 & _).
  assert (Hn : length (Single.future_rows v1) = n).
  { rewrite Hrows. simpl. now apply recorded_length. }
  rewrite <- Hn at 1. now apply stitched_app with (more := recorded round
    (Date_max (Date r0) (map Date rest)) (1 + n) m
    (predictions (Single.trace model round (County_encoded r0)
       (Date_max (Date r0) (map Date rest)) m (1 + n) v1))).
Qed.

Lemma longer_horizon_extends_forecast_witness :
  exists out1 out2,
    Single.forecast (constant_model (Ok (Finite (802 # 5)))) round_half_even 2 history3
    = Ok out1
    /\ Single.forecast (constant_model (Ok (Finite (802 # 5)))) round_half_even 36
         history3 = Ok out2
    /\ firstn 2 (Single.forecast_df out2) = Single.forecast_df out1.
Proof.
  eexists. eexists. split; [vm_compute; reflexivity|].
  split; [vm_compute; reflexivity|].
  refine (longer_horizon_extends_forecast (constant_model (Ok (Finite (802 # 5))))
            round_half_even 2 34 history3 _ _ _ _ _); vm_compute; reflexivity.
Defined.

(** ** The stitched totals *)

Lemma stitched_nth v last i :
  (i < length (Single.future_rows v))%nat ->
  nth i (map fc_Cumulative_EV (stitched v last)) 0
  = inject_Z (nth i (Zcumsum (map Predicted_EV_Total (Single.future_rows v))) 0%Z)
    + last.
Proof.
  intros Hi.
  destruct (with_Cumulative_EV_columns (Single.future_rows v)
              (map (fun z => inject_Z z + last)
                 (Zcumsum (map Predicted_EV_Total (Single.future_rows v)))))
    as (_ & _ & H3).
  { rewrite length_map. unfold Zcumsum. now rewrite Zcumsum_from_length, length_map. }
  unfold stitched. rewrite H3.
  rewrite (nth_indep _ 0 (inject_Z 0 + last)).
  - apply (map_nth (fun z => inject_Z z + last)).
  - rewrite length_map. unfold Zcumsum. now rewrite Zcumsum_from_length, length_map.
Qed.

Lemma stitched_Predicted v last :
  map fc_Predicted_EV_Total (stitched v last)
  = map Predicted_EV_Total (Single.future_rows v).
Proof.
  unfold stitched. apply with_Cumulative_EV_columns.
  rewrite length_map. unfold Zcumsum. now rewrite Zcumsum_from_length, length_map.
Qed.

Lemma stitched_length v last :
  length (stitched v last) = length (Single.future_rows v).
Proof. rewrite <- (length_map fc_Predicted_EV_Total), stitched_Predicted. apply length_map. Qed.

(** X9: when no recorded forecast value is negative and the forecast stays
    in the range of the 64-bit integers, the stitched cumulative series never
    goes down: it starts at or above the final cumulative value of the
    history and each value is at least the one before. *)
Theorem stitched_series_nondecreasing :
  forall (model : Model) (round : Q -> Z) (n : nat) (r0 : Row) (rest : DataFrame)
         (out : Single.output),
    Single.forecast model round n (r0 :: rest) = Ok out ->
    within_int64 (r0 :: rest) (Single.forecast_df out) = true ->
    Forall (fun r => (0 <= fc_Predicted_EV_Total r)%Z) (Single.forecast_df out) ->
    let cumulative_forecast := map fc_Cumulative_EV (Single.forecast_df out) in
    (exists last,
        neg_index (cumsum (map EV_Total (r0 :: rest))) 1 = Ok last
        /\ last <= nth 0 cumulative_forecast 0)
    /\ forall i, (S i < length (Single.forecast_df out))%nat ->
         nth i cumulative_forecast 0 <= nth (S i) cumulative_forecast 0.
Proof.
  intros model round n r0 rest out H _ Hpos cf.
  destruct (forecast_returns _ _ _ _ _ _ H) as (v & last & _ & Elast & Hne & Hdf).
  subst cf. rewrite Hdf in *.
  set (zs := map Predicted_EV_Total (Single.future_rows v)).
  assert (Hzs : forall i, (0 <= nth i zs 0)%Z).
  { intros i. rewrite <- (Forall_map fc_Predicted_EV_Total (fun z => (0 <= z)%Z)) in Hpos.
    rewrite stitched_Predicted in Hpos. fold zs in Hpos.
    destruct (Nat.lt_ge_cases i (length zs)) as [Hi|Hi].
    - rewrite Forall_forall in Hpos. apply Hpos. now apply nth_In.
    - rewrite nth_overflow by assumption. lia. }
  rewrite stitched_length.
  assert (Hlz : length zs = length (Single.future_rows v))
    by (unfold zs; apply length_map).
  split.
  - exists last. split; [assumption|].
    assert (0 < length (Single.future_rows v))%nat
      by (destruct (Single.future_rows v); [congruence|simpl; lia]).
    rewrite stitched_nth by assumption. fold zs. unfold Zcumsum.
    rewrite Zcumsum_from_nth by lia.
    specialize (Hzs 0%nat). rewrite inject_Z_plus.
    assert (inject_Z 0 <= inject_Z (nth 0 zs 0%Z)) by (rewrite <- Zle_Qle; assumption).
    change (inject_Z 0) with 0 in *. lra.
  - intros i Hi. rewrite !stitched_nth by lia. fold zs. unfold Zcumsum.
    rewrite (Zcumsum_from_nth 0 zs (S i)) by lia.
    specialize (Hzs (S i)). rewrite inject_Z_plus.
    assert (inject_Z 0 <= inject_Z (nth (S i) zs 0%Z)) by (rewrite <- Zle_Qle; assumption).
    change (inject_Z 0) with 0 in *. lra.
Qed.

Lemma stitched_series_nondecreasing_witness :
  exists out,
    Single.forecast (constant_model (Ok (Finite (802 # 5)))) round_half_even 2 history3
    = Ok out
    /\ nth 0 (map fc_Cumulative_EV (Single.forecast_df out)) 0
       <= nth 1 (map fc_Cumulative_EV (Single.forecast_df out)) 0.
Proof.
  eexists. split; [vm_compute; reflexivity|].
  refine (proj2 (stitched_series_nondecreasing
    (constant_model (Ok (Finite (802 # 5)))) round_half_even 2
    (mkRow "A" (mkTimestamp 2024 1 31) 100 0 7) (tl history3) _ _ _ _) 0%nat _).
  - vm_compute. reflexivity.
  - vm_compute. reflexivity.
  - repeat constructor; simpl; lia.
  - simpl. lia.
Defined.

(** Rounding moves a value by at most one half. *)
Lemma round_half_even_error q :
  - (1 # 2) <= inject_Z (round_half_even q) - q <= 1 # 2.
Proof.
  pose proof (Qfloor_le q) as Hlo. pose proof (Qlt_floor q) as Hhi.
  rewrite inject_Z_plus in Hhi. change (inject_Z 1) with 1 in Hhi.
  unfold round_half_even.
  destruct (Qle_bool (q - inject_Z (Qfloor q)) (1 # 2)) eqn:E1.
  - apply Qle_bool_iff in E1.
    destruct (Qeq_bool (q - inject_Z (Qfloor q)) (1 # 2)) eqn:E2.
    + apply Qeq_bool_iff in E2. destruct (Z.even (Qfloor q)).
      * lra.
      * rewrite inject_Z_plus. change (inject_Z 1) with 1. lra.
    + lra.
  - assert (~ q - inject_Z (Qfloor q) <= 1 # 2).
    { intros Hc. apply Qle_bool_iff in Hc. congruence. }
    rewrite inject_Z_plus. change (inject_Z 1) with 1. lra.
Qed.

Lemma rounded_totals_drift l : forall acc i,
  (i < length l)%nat ->
  - (inject_Z (Z.of_nat (S i)) * (1 # 2))
  <= inject_Z (nth i (Zcumsum_from acc (map round_half_even l)) 0%Z)
     - (inject_Z acc + Qsum (firstn (S i) l))
  <= inject_Z (Z.of_nat (S i)) * (1 # 2).
Proof.
  induction l as [|x l IH]; intros acc i Hi; [simpl in Hi; lia|].
  pose proof (round_half_even_error x) as Hx.
  destruct i as [|i].
  - cbn [map Zcumsum_from nth firstn]. unfold Qsum. cbn [fold_right].
    rewrite inject_Z_plus. change (inject_Z (Z.of_nat 1)) with 1. lra.
  - cbn [map Zcumsum_from nth]. simpl in Hi.
    specialize (IH (acc + round_half_even x)%Z i ltac:(lia)).
    rewrite inject_Z_plus in IH.
    rewrite (Nat2Z.inj_succ (S i)). unfold Z.succ. rewrite inject_Z_plus.
    change (inject_Z 1) with 1.
    change (firstn (S (S i)) (x :: l)) with (x :: firstn (S i) l).
    unfold Qsum in *. cbn [fold_right]. lra.
Qed.

(** X10: because the stitched series adds up rounded values, it drifts from
    the running total of the unrounded predictions, by at most one half per
    step: as long as the forecast stays in the range of the 64-bit integers,
    value [i] differs from the history's final cumulative value plus the
    first [i + 1] unrounded predictions by at most [(i + 1) / 2]. *)
Theorem stitched_series_rounding_drift :
  forall (model : Model) (n : nat) (r0 : Row) (rest : DataFrame) (out : Single.output)
         (i : nat),
    Single.forecast model round_half_even n (r0 :: rest) = Ok out ->
    within_int64 (r0 :: rest) (Single.forecast_df out) = true ->
    (i < n)%nat ->
    let preds :=
      predictions (Single.trace model round_half_even (County_encoded r0)
                     (Date_max (Date r0) (map Date rest)) n 1 (Single.seed r0 rest)) in
    exists last,
      neg_index (cumsum (map EV_Total (r0 :: rest))) 1 = Ok last
      /\ - (inject_Z (Z.of_nat (S i)) * (1 # 2))
         <= nth i (map fc_Cumulative_EV (Single.forecast_df out)) 0
            - (last + Qsum (firstn (S i) preds))
         <= inject_Z (Z.of_nat (S i)) * (1 # 2).
Proof.
  intros model n r0 rest out i H _ Hi preds.
  destruct (forecast_returns _ _ _ _ _ _ H) as (v & last & Hl & Elast & _ & Hdf).
  destruct (stitched_columns model round_half_even n r0 rest v last Hl)
    as (Hlen & _ & Hpred & _).
  fold preds in Hlen, Hpred. rewrite stitched_Predicted in Hpred.
  exists last. split; [assumption|].
  rewrite Hdf, stitched_nth, Hpred.
  - pose proof (rounded_totals_drift preds 0%Z i ltac:(lia)) as Hd.
    unfold Zcumsum. change (inject_Z 0) with 0 in Hd. lra.
  - rewrite <- (length_map Predicted_EV_Total), Hpred, length_map. lia.
Qed.

Lemma stitched_series_rounding_drift_witness :
  exists out,
    Single.forecast (constant_model (Ok (Finite (802 # 5)))) round_half_even 2 history3
    = Ok out
    /\ nth 1 (map fc_Cumulative_EV (Single.forecast_df out)) 0
       - (370 + Qsum [802 # 5; 802 # 5]) <= 1.
Proof.
  eexists. split; [vm_compute; reflexivity|].
  destruct (stitched_series_rounding_drift (constant_model (Ok (Finite (802 # 5)))) 2
              (mkRow "A" (mkTimestamp 2024 1 31) 100 0 7) (tl history3) _ 1%nat
              eq_refl eq_refl ltac:(lia)) as (last & Hlast & _ & Hhi).
  vm_compute in Hlast. injection Hlast as <-.
  exact Hhi.
Defined.

(** ** The summary of the single-county forecast *)

Lemma Qpos_true x : Qpos x = true <-> 0 < x.
Proof.
  unfold Qpos. destruct (Qle_bool x 0) eqn:E; simpl.
  - apply Qle_bool_iff in E. split; [discriminate|lra].
  - split; [|reflexivity]. intros _.
    destruct (Qlt_le_dec 0 x) as [|Hle]; [assumption|].
    apply Qle_bool_iff in Hle. congruence.
Qed.

Lemma Qpos_false x : Qpos x = false <-> x <= 0.
Proof.
  pose proof (Qpos_true x) as H. destruct (Qpos x).
  - split; [discriminate|]. intros Hle. assert (0 < x) by now apply H. lra.
  - split; [|reflexivity]. intros _.
    destruct (Qlt_le_dec 0 x) as [Hlt|]; [|assumption].
    apply H in Hlt. discriminate.
Qed.

Lemma neg_index_map {A B} (f : A -> B) (l : list A) k :
  neg_index (map f l) k = rmap f (neg_index l k).
Proof.
  unfold neg_index, rmap, rbind. rewrite length_map, nth_error_map.
  destruct (k <=? length l)%nat; [|reflexivity].
  destruct (nth_error l (length l - k)); reflexivity.
Qed.

Lemma Zcumsum_from_last zs : forall acc d,
  zs <> [] -> last (Zcumsum_from acc zs) d = (acc + Zsum zs)%Z.
Proof.
  induction zs as [|x zs IH]; intros acc d H; [congruence|].
  destruct zs as [|y zs].
  - simpl. lia.
  - change (Zcumsum_from acc (x :: y :: zs))
      with ((acc + x)%Z :: Zcumsum_from (acc + x) (y :: zs)).
    change (Zsum (x :: y :: zs)) with (x + Zsum (y :: zs))%Z.
    cbn [Zcumsum_from]. cbn [Zcumsum_from] in IH.
    change (last ((acc + x)%Z :: (acc + x + y)%Z :: Zcumsum_from (acc + x + y) zs) d)
      with (last ((acc + x + y)%Z :: Zcumsum_from (acc + x + y) zs) d).
    rewrite IH by discriminate. lia.
Qed.

(** The last stitched value: the final cumulative value of the history plus
    the sum of the rounded predictions. *)
Lemma stitched_last v last :
  Single.future_rows v <> [] ->
  neg_index (map fc_Cumulative_EV (stitched v last)) 1
  = Ok (inject_Z (Zsum (map fc_Predicted_EV_Total (stitched v last))) + last).
Proof.
  intros Hne. rewrite stitched_Predicted.
  destruct (with_Cumulative_EV_columns (Single.future_rows v)
              (map (fun z => inject_Z z + last)
                 (Zcumsum (map Predicted_EV_Total (Single.future_rows v)))))
    as (_ & _ & H3).
  { rewrite length_map. unfold Zcumsum. now rewrite Zcumsum_from_length, length_map. }
  unfold stitched. rewrite H3, neg_index_map.
  assert (Hz : Zcumsum (map Predicted_EV_Total (Single.future_rows v)) <> []).
  { intros E. apply (f_equal (@length _)) in E. unfold Zcumsum in E.
    rewrite Zcumsum_from_length, length_map in E.
    destruct (Single.future_rows v); [congruence|discriminate]. }
  rewrite (neg_index_last _ 0%Z Hz). unfold Zcumsum, rmap, rbind.
  rewrite Zcumsum_from_last.
  - reflexivity.
  - destruct (Single.future_rows v); [congruence|discriminate].
Qed.

(** X11: the summary of a forecast that returned and stays in the range of
    the 64-bit integers shows the warning exactly
    when the final cumulative value of the history is not positive (zero or
    negative); otherwise it shows the growth, which is the sum of the rounded
    predictions as a percentage of that value, and calls it an increase
    exactly when that sum is positive: no change at all is shown as a
    decrease of 0 percent. *)
Theorem summary_reports_rounded_growth :
  forall (model : Model) (round : Q -> Z) (n : nat) (r0 : Row) (rest : DataFrame)
         (out : Single.output),
    Single.forecast model round n (r0 :: rest) = Ok out ->
    within_int64 (r0 :: rest) (Single.forecast_df out) = true ->
    let total := Zsum (map fc_Predicted_EV_Total (Single.forecast_df out)) in
    exists hist_total,
      neg_index (cumsum (map EV_Total (r0 :: rest))) 1 = Ok hist_total
      /\ (hist_total <= 0 -> forecast_summary (r0 :: rest) out = Ok Warning)
      /\ (0 < hist_total ->
          exists growth_pct,
            forecast_summary (r0 :: rest) out
            = Ok (Success (if (0 <? total)%Z then "increase" else "decrease")
                    growth_pct)
            /\ growth_pct == inject_Z total / hist_total * 100).
Proof.
  intros model round n r0 rest out H _ total.
  destruct (forecast_returns _ _ _ _ _ _ H) as (v & last & _ & Elast & Hne & Hdf).
  exists last. split; [assumption|].
  unfold forecast_summary, rbind. rewrite Elast, Hdf, (stitched_last v last Hne).
  subst total. rewrite Hdf.
  set (t := Zsum (map fc_Predicted_EV_Total (stitched v last))).
  split.
  - intros Hle. apply Qpos_false in Hle. now rewrite Hle.
  - intros Hpos. pose proof Hpos as Hp. apply Qpos_true in Hp. rewrite Hp.
    exists ((inject_Z t + last - last) / last * 100). split; [|field; lra].
    do 2 f_equal.
    assert (Hu : 0 < / last) by now apply Qinv_lt_0_compat.
    assert (Hg : (inject_Z t + last - last) / last * 100 == inject_Z t * / last * 100)
      by (field; lra).
    destruct (Z.ltb_spec 0 t) as [Ht|Ht].
    + assert (Hq : Qpos ((inject_Z t + last - last) / last * 100) = true).
      { apply Qpos_true. rewrite Hg.
        assert (inject_Z 0 < inject_Z t) by (rewrite <- Zlt_Qlt; assumption).
        change (inject_Z 0) with 0 in *. nra. }
      now rewrite Hq.
    + assert (Hq : Qpos ((inject_Z t + last - last) / last * 100) = false).
      { apply Qpos_false. rewrite Hg.
        assert (inject_Z t <= inject_Z 0) by (rewrite <- Zle_Qle; assumption).
        change (inject_Z 0) with 0 in *. nra. }
      now rewrite Hq.
Qed.

Lemma summary_reports_rounded_growth_witness :
  exists out,
    Single.forecast (constant_model (Ok (Finite (1 # 4)))) round_half_even 3 history3
    = Ok out
    /\ exists hist_total,
         neg_index (cumsum (map EV_Total history3)) 1 = Ok hist_total
         /\ (hist_total <= 0 -> forecast_summary history3 out = Ok Warning)
         /\ (0 < hist_total ->
             exists growth_pct,
               forecast_summary history3 out
               = Ok (Success
                       (if (0 <? Zsum (map fc_Predicted_EV_Total
                                         (Single.forecast_df out)))%Z
                        then "increase" else "decrease") growth_pct)
               /\ growth_pct
                  == inject_Z (Zsum (map fc_Predicted_EV_Total
                                       (Single.forecast_df out)))
                     / hist_total * 100).
Proof.
  eexists. split; [vm_compute; reflexivity|].
  apply (summary_reports_rounded_growth (constant_model (Ok (Finite (1 # 4))))
           round_half_even 3 (mkRow "A" (mkTimestamp 2024 1 31) 100 0 7)
           (tl history3)); vm_compute; reflexivity.
Defined.

(** ** The growth summary of the comparison *)

Lemma traverse_inv {A B} (f : A -> result B) l : forall ys,
  traverse f l = Ok ys -> Forall2 (fun x y => f x = Ok y) l ys.
Proof.
  induction l as [|x l IH]; intros ys H.
  - injection H as <-. constructor.
  - cbn [traverse] in H. unfold rbind in H.
    destruct (f x) as [y|] eqn:Ef; [|discriminate].
    destruct (traverse f l) as [ys'|]; [|discriminate].
    injection H as <-. constructor; auto.
Qed.

Lemma traverse_ext_in {A B} (f g : A -> result B) l :
  (forall x, In x l -> f x = g x) -> traverse f l = traverse g l.
Proof.
  induction l as [|x l IH]; intros H; [reflexivity|].
  cbn [traverse]. rewrite (H x) by now left.
  rewrite IH; [reflexivity|]. intros y Hy. apply H. now right.
Qed.

Lemma neg_index_app_r {A} (a b : list A) k :
  (k <= length b)%nat -> neg_index (a ++ b) k = neg_index b k.
Proof.
  intros H. unfold neg_index. rewrite length_app.
  destruct (Nat.leb_spec k (length a + length b)); [|lia].
  destruct (Nat.leb_spec k (length b)); [|lia].
  rewrite nth_error_app2 by lia.
  now replace (length a + length b - k - length a)%nat with (length b - k)%nat by lia.
Qed.

(** The index [len - horizon - 1] into a column of [len] values whose last
    [horizon] values are the forecast: the last value before the forecast. *)
Lemma iloc_before_forecast {A} (a b : list A) :
  (1 <= length a)%nat ->
  iloc (a ++ b) (Z.of_nat (length (a ++ b)) - Z.of_nat (length b) - 1)
  = neg_index a 1.
Proof.
  intros H. unfold iloc, neg_index. rewrite length_app.
  set (k := (Z.of_nat (length a + length b) - Z.of_nat (length b) - 1)%Z).
  assert (Hk : k = Z.of_nat (length a - 1)) by (subst k; lia).
  destruct (Z.ltb_spec k (- Z.of_nat (length a + length b))); [lia|].
  destruct (Z.leb_spec (Z.of_nat (length a + length b)) k); [lia|].
  destruct (Z.ltb_spec k 0); [lia|].
  destruct (Nat.leb_spec 1 (length a)); [|lia].
  cbn [orb]. rewrite Hk, Nat2Z.id. now rewrite nth_error_app1 by lia.
Qed.

Lemma filter_own_tag {A} (l : list A) (cty : string) :
  filter (fun x : A * string => String.eqb (snd x) cty) (map (fun x => (x, cty)) l)
  = map (fun x => (x, cty)) l.
Proof.
  induction l as [|x l IH]; [reflexivity|].
  cbn [map filter snd]. now rewrite String.eqb_refl, IH.
Qed.

Lemma filter_relabelled {A} (l : list (A * string)) (cty : string) :
  filter (fun x => String.eqb (snd x) cty) (map (fun x => (fst x, cty)) l)
  = map (fun x => (fst x, cty)) l.
Proof. rewrite <- (map_map fst (fun r => (r, cty))). apply filter_own_tag. Qed.

Lemma filter_other_tag {A} (l : list (A * string)) (tag cty : string) :
  Forall (fun r => snd r = tag) l -> tag <> cty ->
  filter (fun x => String.eqb (snd x) cty) l = [].
Proof.
  intros Hl Hne. induction Hl as [|r l Hr _ IH]; [reflexivity|].
  cbn [filter]. rewrite Hr. apply String.eqb_neq in Hne. now rewrite Hne.
Qed.

Lemma filter_concat_absent {Y A} (frame : Y -> list (A * string)) l ys cty :
  Forall2 (fun x y => exists rows, frame y = map (fun r => (r, x)) rows) l ys ->
  ~ In cty l ->
  filter (fun r => String.eqb (snd r) cty) (concat (map frame ys)) = [].
Proof.
  intros HF. induction HF as [|x y l ys [rows Hrows] HF IH]; intros Hnotin;
    [reflexivity|].
  cbn [map concat]. rewrite filter_app, IH by (intros Hc; apply Hnotin; now right).
  rewrite app_nil_r. apply (filter_other_tag _ x).
  - rewrite Hrows. apply Forall_forall. intros r Hr.
    apply in_map_iff in Hr as (? & <- & _). reflexivity.
  - intros ->. apply Hnotin. now left.
Qed.

(** In the concatenation of frames labelled with distinct counties, the rows
    of a county are the rows of its frame. *)
Lemma filter_concat_frames {Y A} (frame : Y -> list (A * string)) l ys :
  NoDup l ->
  Forall2 (fun x y => exists rows, frame y = map (fun r => (r, x)) rows) l ys ->
  forall x y, In (x, y) (combine l ys) ->
    filter (fun r => String.eqb (snd r) x) (concat (map frame ys)) = frame y.
Proof.
  intros Hnd HF. induction HF as [|x0 y0 l ys [rows Hrows] HF IH]; intros x y Hin.
  - destruct Hin.
  - inversion Hnd as [|? ? Hnotin Hnd']; subst.
    cbn [map concat]. rewrite filter_app. destruct Hin as [[= <- <-]|Hin].
    + rewrite (filter_concat_absent frame l ys x0 HF Hnotin), app_nil_r.
      rewrite Hrows. apply filter_own_tag.
    + rewrite (IH Hnd' x y Hin).
      rewrite (filter_other_tag (frame y0) x0).
      * reflexivity.
      * rewrite Hrows. apply Forall_forall. intros r Hr.
        apply in_map_iff in Hr as (? & <- & _). reflexivity.
      * intros ->. apply Hnotin. apply in_combine_l in Hin. assumption.
Qed.

Lemma growth_entry_filter n c1 c2 cty :
  filter (fun x : Timestamp * Q * string => String.eqb (snd x) cty) c1
  = filter (fun x => String.eqb (snd x) cty) c2 ->
  growth_entry n c1 cty = growth_entry n c2 cty.
Proof. unfold growth_entry. now intros ->. Qed.

Lemma map_snd_combine {A B} (a : list A) : forall (b : list B),
  length a = length b -> map snd (combine a b) = b.
Proof.
  induction a as [|x a IH]; intros [|y b] H; try discriminate; [reflexivity|].
  simpl in *. f_equal. apply IH. lia.
Qed.

Lemma forecast_returns_frames model round n r0 rest out :
  Single.forecast model round n (r0 :: rest) = Ok out ->
  exists v last,
    Single.loop model round (County_encoded r0)
      (Date_max (Date r0) (map Date rest)) n 1 (Single.seed r0 rest) = Completed v
    /\ Single.future_rows v <> []
    /\ out = Single.mkOutput (stitched v last)
               (map (fun p => (Date (fst p), snd p, "Historical"%string))
                    (combine (r0 :: rest) (cumsum (map EV_Total (r0 :: rest))))
                ++ map (fun r => (fc_Date r, fc_Cumulative_EV r, "Forecast"%string))
                       (stitched v last)).
Proof.
  unfold Single.forecast.
  destruct (Single.loop _ _ _ _ _ _ _) as [v|]; [|discriminate].
  unfold column_Predicted_EV_Total, rbind.
  destruct (Single.future_rows v) as [|f fs] eqn:Ef; [discriminate|].
  destruct (neg_index _ 1) as [last|]; [|discriminate].
  intros [= <-]. exists v, last. unfold stitched. rewrite Ef.
  repeat split; congruence.
Qed.

(** The 'Cumulative EV' column of the combined frame: the running totals of
    the history, then the stitched totals of the forecast. *)
Lemma combined_column model round n r0 rest out :
  Single.forecast model round n (r0 :: rest) = Ok out ->
  map (fun x => snd (fst x)) (Single.combined out)
  = cumsum (map EV_Total (r0 :: rest))
    ++ map fc_Cumulative_EV (Single.forecast_df out)
  /\ length (Single.forecast_df out) = n
  /\ (1 <= n)%nat.
Proof.
  intros H.
  destruct (forecast_returns_frames _ _ _ _ _ _ H) as (v & last & El & Hne & ->).
  cbn [Single.combined Single.forecast_df].
  destruct (loop_completed _ _ _ _ _ _ _ _ El) as (Hlen & Hrows & _).
  assert (Hn : length (Single.future_rows v) = n).
  { rewrite Hrows. simpl. now apply recorded_length. }
  split; [|split].
  - rewrite map_app, !map_map. cbn [fst snd]. f_equal.
    rewrite <- (map_map snd (fun x => x)), map_id.
    apply map_snd_combine. unfold cumsum.
    now rewrite cumsum_from_length, length_map.
  - now rewrite stitched_length.
  - destruct (Single.future_rows v); [congruence|]. rewrite <- Hn. simpl. lia.
Qed.

(** The entry of the growth summary read from a county's own frame is what
    the summary of the single-county forecast shows. *)
Lemma growth_entry_of_region model round n county_df cty out :
  Single.forecast model round n county_df = Ok out ->
  growth_entry n (Multi.combined_cty (as_region cty out)) cty
  = (m <- forecast_summary county_df out ;;
     Ok (cty, match m with
              | Success _ growth_pct => Some growth_pct
              | Warning => None
              end)).
Proof.
  intros H. destruct county_df as [|r0 rest]; [discriminate|].
  destruct (combined_column _ _ _ _ _ _ H) as (Hcol & Hlen & Hn).
  unfold growth_entry, as_region. cbn [Multi.combined_cty].
  rewrite filter_relabelled, !length_map, !map_map. cbn [fst snd].
  rewrite Hcol.
  assert (Hl : length (Single.combined out)
               = length (cumsum (map EV_Total (r0 :: rest))
                         ++ map fc_Cumulative_EV (Single.forecast_df out))).
  { rewrite <- Hcol. now rewrite length_map. }
  rewrite Hl.
  replace (Z.of_nat n)
    with (Z.of_nat (length (map fc_Cumulative_EV (Single.forecast_df out))))
    by (rewrite length_map; congruence).
  rewrite iloc_before_forecast
    by (unfold cumsum; rewrite cumsum_from_length; simpl; lia).
  rewrite neg_index_app_r by (rewrite length_map; lia).
  unfold forecast_summary, rbind.
  destruct (neg_index (cumsum (map EV_Total (r0 :: rest))) 1) as [hist|];
    [|reflexivity].
  destruct (neg_index (map fc_Cumulative_EV (Single.forecast_df out)) 1) as [fore|];
    [|reflexivity].
  destruct (Qpos hist); reflexivity.
Qed.

(** X12: when the comparison of distinct counties has run and the forecast
    of each county stays in the range of the 64-bit integers, the growth
    summary shows for each county what the summary of its single-county
    forecast shows (the growth of the stitched series over the final
    cumulative value of the history, or 'N/A' where the single summary
    warns): the index [len - horizon - 1] always lands on the last historical
    row and never raises. *)
Theorem comparison_summary_matches_single :
  forall (model : Model) (df : DataFrame) (multi_counties : list string)
         (outs : list Multi.output),
    NoDup multi_counties ->
    Multi.comparison model df multi_counties = Ok (Some outs) ->
    Forall2 (fun cty y => within_int64 (select df cty) (Multi.fc_df y) = true)
      multi_counties outs ->
    growth_summary Single.forecast_horizon multi_counties
      (map Multi.combined_cty outs)
    = match multi_counties with
      | [] => Ok None
      | _ => rmap Some
               (traverse
                  (single_growth model round_half_even Single.forecast_horizon df)
                  multi_counties)
      end.
Proof.
  intros model df cties outs Hnd H _. unfold Multi.comparison in H.
  destruct (3 <? length cties)%nat; [discriminate|].
  unfold rmap, rbind in H.
  destruct (traverse _ cties) as [ys|] eqn:Et; [|discriminate].
  injection H as <-. apply traverse_inv in Et.
  assert (HF : Forall2 (fun cty y =>
                 exists out,
                   Single.forecast model round_half_even Single.forecast_horizon
                     (select df cty) = Ok out
                   /\ y = as_region cty out) cties ys).
  { eapply Forall2_impl; [|exact Et]. intros cty y Hy. cbv beta in Hy.
    rewrite region_same in Hy. unfold rmap, rbind in Hy.
    destruct (Single.forecast _ _ _ _) as [out|]; [|discriminate].
    injection Hy as <-. now exists out. }
  destruct cties as [|c0 cties]; [inversion Et; reflexivity|].
  destruct ys as [|y0 ys]; [inversion Et|].
  change (growth_summary Single.forecast_horizon (c0 :: cties)
            (map Multi.combined_cty (y0 :: ys)))
    with (rmap Some
            (traverse (growth_entry Single.forecast_horizon
                         (concat (map Multi.combined_cty (y0 :: ys))))
               (c0 :: cties))).
  f_equal. apply traverse_ext_in. intros cty Hin.
  assert (Hy : exists y, In (cty, y) (combine (c0 :: cties) (y0 :: ys))).
  { clear -Hin HF. induction HF as [|x y l l' _ _ IH]; [destruct Hin|].
    destruct Hin as [->|Hin].
    - exists y. now left.
    - destruct (IH Hin) as [y' Hy']. exists y'. now right. }
  destruct Hy as [y Hy].
  assert (Hout : exists out,
             Single.forecast model round_half_even Single.forecast_horizon
               (select df cty) = Ok out /\ y = as_region cty out).
  { clear -Hy HF. induction HF as [|x y1 l l' Hxy _ IH]; [destruct Hy|].
    destruct Hy as [[= -> ->]|Hy]; [assumption|exact (IH Hy)]. }
  destruct Hout as (out & Hout & ->).
  rewrite (growth_entry_filter _ _
             (Multi.combined_cty (as_region cty out))).
  - rewrite (growth_entry_of_region _ _ _ _ _ _ Hout).
    unfold single_growth, forecast_and_summary, rbind. now rewrite Hout.
  - rewrite (filter_concat_frames Multi.combined_cty (c0 :: cties) (y0 :: ys) Hnd)
      with (y := as_region cty out); [| |assumption].
    + unfold as_region. cbn [Multi.combined_cty]. now rewrite filter_relabelled.
    + eapply Forall2_impl; [|exact HF]. intros x y (o & _ & ->).
      exists (map fst (Single.combined o)). unfold as_region.
      cbn [Multi.combined_cty]. now rewrite map_map.
Qed.

Lemma comparison_summary_matches_single_witness :
  exists outs,
    Multi.comparison (constant_model (Ok (Finite 160))) four_counties
      ["A"; "B"]%string = Ok (Some outs)
    /\ growth_summary Single.forecast_horizon ["A"; "B"]%string
         (map Multi.combined_cty outs)
       = rmap Some
           (traverse
              (single_growth (constant_model (Ok (Finite 160))) round_half_even
                 Single.forecast_horizon four_counties)
              ["A"; "B"]%string).
Proof.
  eexists. split; [vm_compute; reflexivity|].
  refine (comparison_summary_matches_single (constant_model (Ok (Finite 160)))
            four_counties ["A"; "B"]%string _ _ _ _).
  - repeat constructor; simpl; intuition discriminate.
  - vm_compute. reflexivity.
  - repeat constructor; vm_compute; reflexivity.
Defined.

(** ** The frame of a county *)

Lemma insert_by_date_perm r l : Permutation (insert_by_date r l) (r :: l).
Proof.
  induction l as [|x l IH]; [reflexivity|].
  cbn [insert_by_date]. destruct (date_leb (Date r) (Date x)); [reflexivity|].
  rewrite IH. apply perm_swap.
Qed.

Lemma sort_values_Date_perm l : Permutation (sort_values_Date l) l.
Proof.
  unfold sort_values_Date. induction l as [|r l IH]; [reflexivity|].
  cbn [fold_right]. rewrite insert_by_date_perm. now constructor.
Qed.

Lemma filter_nil_existsb df county :
  filter (fun r => String.eqb (County r) county) df = []
  <-> existsb (String.eqb county) (map County df) = false.
Proof.
  induction df as [|r df IH]; [simpl; tauto|].
  cbn [filter map existsb]. rewrite (String.eqb_sym county (County r)).
  destruct (String.eqb (County r) county); simpl.
  - split; discriminate.
  - exact IH.
Qed.

Lemma select_perm df county :
  Permutation (select df county)
    (filter (fun r => String.eqb (County r) county) df).
Proof. apply sort_values_Date_perm. Qed.

Lemma select_nil_iff df county :
  select df county = [] <-> existsb (String.eqb county) (map County df) = false.
Proof.
  pose proof (select_perm df county) as Hp.
  rewrite <- filter_nil_existsb. split.
  - intros E. rewrite E in Hp. now apply Permutation_nil.
  - intros E. rewrite E in Hp. apply Permutation_sym in Hp.
    now apply Permutation_nil.
Qed.

(** X13: the frame selected for a county holds exactly the rows of the data
    whose 'County' is that county, each as often as in the data, in ascending
    order of date; it is empty exactly when the county does not occur in the
    data. *)
Theorem select_gives_county_history :
  forall (df : DataFrame) (county : string),
    Permutation (select df county)
      (filter (fun r => String.eqb (County r) county) df)
    /\ Forall (fun r => County r = county) (select df county)
    /\ sorted_by_date (select df county) = true
    /\ (select df county = []
        <-> existsb (String.eqb county) (map County df) = false).
Proof.
  intros df county.
  pose proof (select_perm df county) as Hp.
  split; [assumption|]. split; [|split].
  - apply (Permutation_Forall (Permutation_sym Hp)).
    apply Forall_forall. intros r Hr. apply filter_In in Hr as [_ Hr].
    now apply String.eqb_eq.
  - apply select_sorted.
  - apply select_nil_iff.
Qed.

(** X14: for a county that does not occur in the data the two paths differ:
    the single-county section stops with its warning before any forecast,
    while an iteration of the comparison raises [IndexError] on the empty
    frame. *)
Theorem absent_county_warns_or_raises :
  forall (model : Model) (round : Q -> Z) (n : nat) (df : DataFrame)
         (county : string),
    existsb (String.eqb county) (map County df) = false ->
    Single.run model df county = Ok None
    /\ Multi.region model round n df county = Raise IndexError.
Proof.
  intros model round n df county H. split.
  - unfold Single.run. now rewrite H.
  - unfold Multi.region. apply select_nil_iff in H. now rewrite H.
Qed.

Lemma absent_county_warns_or_raises_witness :
  Single.run (constant_model (Ok (Finite 160))) four_counties "E" = Ok None
  /\ Multi.region (constant_model (Ok (Finite 160))) round_half_even 36
       four_counties "E" = Raise IndexError.
Proof.
  apply (absent_county_warns_or_raises (constant_model (Ok (Finite 160)))
           round_half_even 36 four_counties "E").
  reflexivity.
Defined.

(** ** Calendar dates *)

Lemma days_in_month_ge y m : (28 <= days_in_month y m)%Z.
Proof.
  unfold days_in_month.
  repeat match goal with
         | |- context [if ?b then _ else _] => destruct b
         end; lia.
Qed.

Lemma add_months_valid d i : (1 <= day d)%Z -> valid_date (add_months d i).
Proof.
  intros Hd. unfold valid_date, add_months. cbn [year month day].
  pose proof (Z.mod_pos_bound (month_index d + i) 12 ltac:(lia)).
  pose proof (days_in_month_ge ((month_index d + i) / 12)
                ((month_index d + i) mod 12 + 1)).
  lia.
Qed.

Lemma add_months_later d i :
  (1 <= month d <= 12)%Z -> (0 < i)%Z -> date_ltb d (add_months d i) = true.
Proof.
  intros Hm Hi. unfold date_ltb, add_months, month_index. cbn [year month day].
  set (b := (year d * 12 + (month d - 1) + i)%Z).
  pose proof (Z.div_mod b 12 ltac:(lia)). pose proof (Z.mod_pos_bound b 12 ltac:(lia)).
  destruct (Z.ltb_spec (year d) (b / 12)) as [|Hy]; [reflexivity|].
  assert (year d = b / 12)%Z as Hq by (subst b; lia).
  rewrite <- Hq, Z.eqb_refl. cbn [orb andb].
  destruct (Z.ltb_spec (month d) (b mod 12 + 1)); [reflexivity|subst b; lia].
Qed.

(** X15: when the latest historical date is a calendar date, every forecast
    date is a calendar date after it, and its day is the day of the latest
    historical date, cut to the length of the month: the day is counted from
    the latest historical date at every step, so a short month does not move
    the days of the months after it. *)
Theorem forecast_dates_are_calendar_dates :
  forall (model : Model) (round : Q -> Z) (n : nat) (r0 : Row) (rest : DataFrame)
         (out : Single.output),
    Single.forecast model round n (r0 :: rest) = Ok out ->
    valid_date (Date_max (Date r0) (map Date rest)) ->
    Forall (fun r =>
              valid_date (fc_Date r)
              /\ date_ltb (Date_max (Date r0) (map Date rest)) (fc_Date r) = true
              /\ day (fc_Date r)
                 = Z.min (day (Date_max (Date r0) (map Date rest)))
                     (days_in_month (year (fc_Date r)) (month (fc_Date r))))
      (Single.forecast_df out).
Proof.
  intros model round n r0 rest out H [Hm Hd].
  destruct (forecast_returns _ _ _ _ _ _ H) as (v & last & Hl & _ & _ & Hdf).
  destruct (stitched_columns model round n r0 rest v last Hl) as (_ & Hdates & _).
  rewrite Hdf.
  rewrite <- (Forall_map fc_Date
                (fun d => valid_date d
                          /\ date_ltb (Date_max (Date r0) (map Date rest)) d = true
                          /\ day d = Z.min (day (Date_max (Date r0) (map Date rest)))
                                       (days_in_month (year d) (month d)))).
  rewrite Hdates. apply Forall_map, Forall_forall. intros j Hj.
  apply in_seq in Hj. split; [|split].
  - apply add_months_valid. lia.
  - apply add_months_later; [assumption|lia].
  - reflexivity.
Qed.

Lemma forecast_dates_are_calendar_dates_witness :
  exists out,
    Single.forecast (constant_model (Ok (Finite 160))) round_half_even 3 history_jan
    = Ok out
    /\ map fc_Date (Single.forecast_df out)
       = [mkTimestamp 2024 2 29; mkTimestamp 2024 3 31; mkTimestamp 2024 4 30]
    /\ Forall (fun r => valid_date (fc_Date r)) (Single.forecast_df out).
Proof.
  eexists. split; [vm_compute; reflexivity|]. split; [vm_compute; reflexivity|].
  eapply Forall_impl;
    [|apply (forecast_dates_are_calendar_dates (constant_model (Ok (Finite 160)))
               round_half_even 3 (mkRow "A" (mkTimestamp 2023 11 30) 100 0 7)
               (tl history_jan))].
  - intros r Hr. exact (proj1 Hr).
  - vm_compute. reflexivity.
  - unfold valid_date. vm_compute. intuition discriminate.
Defined.

(** ** A short history in the comparison *)

Lemma forecast_short_raises model round n county_df :
  (length county_df < 3)%nat -> (1 <= n)%nat ->
  Single.forecast model round n county_df = Raise IndexError.
Proof.
  intros Hlen Hn. destruct county_df as [|r0 rest]; [reflexivity|].
  destruct n as [|n]; [lia|].
  unfold Single.forecast. cbn [Single.loop]. unfold Single.body.
  rewrite engineer_short; [reflexivity|].
  rewrite (proj1 (seed_length r0 rest)). simpl in Hlen. lia.
Qed.

Lemma traverse_raises {A B} (f : A -> result B) l x e :
  In x l -> f x = Raise e -> exists e', traverse f l = Raise e'.
Proof.
  induction l as [|y l IH]; intros Hin Hx; [destruct Hin|].
  cbn [traverse]. unfold rbind. destruct Hin as [->|Hin].
  - rewrite Hx. now exists e.
  - destruct (f y) as [b|e0]; [|now exists e0].
    destruct (IH Hin Hx) as [e' ->]. now exists e'.
Qed.

(** X16: one county with fewer than 3 rows of history among the (at most 3)
    counties selected ends the whole comparison with an exception: no county
    of the selection gets a result, whatever its own history. *)
Theorem short_history_blocks_comparison :
  forall (model : Model) (df : DataFrame) (multi_counties : list string)
         (cty : string),
    (length multi_counties <= 3)%nat ->
    In cty multi_counties ->
    (length (select df cty) < 3)%nat ->
    exists e, Multi.comparison model df multi_counties = Raise e.
Proof.
  intros model df cties cty Hlen Hin Hshort. unfold Multi.comparison.
  destruct (Nat.ltb_spec 3 (length cties)); [lia|].
  destruct (traverse_raises
              (Multi.region model round_half_even Single.forecast_horizon df)
              cties cty IndexError Hin) as [e He].
  - rewrite region_same, forecast_short_raises; [reflexivity|assumption|].
    unfold Single.forecast_horizon. lia.
  - exists e. unfold rmap, rbind. now rewrite He.
Qed.

Lemma short_history_blocks_comparison_witness :
  exists e,
    Multi.comparison (constant_model (Ok (Finite 160)))
      (four_counties ++ history_short) ["A"; "Z"; "B"]%string = Raise e.
Proof.
  apply (short_history_blocks_comparison (constant_model (Ok (Finite 160)))
           (four_counties ++ history_short) ["A"; "Z"; "B"]%string "Z"%string).
  - simpl. lia.
  - simpl. auto.
  - vm_compute. lia.
Defined.

(** ** The growth slope and the totals of the whole history *)

Lemma growth_slope_lastn c : growth_slope (lastn 6 c) = growth_slope c.
Proof.
  unfold growth_slope. rewrite lastn_length, lastn_lastn by lia.
  destruct (Nat.leb_spec 6 (length c)).
  - destruct (Nat.leb_spec 6 (Nat.min 6 (length c))); [reflexivity|lia].
  - destruct (Nat.leb_spec 6 (Nat.min 6 (length c))); [lia|reflexivity].
Qed.

Lemma growth_slope_app older c :
  (6 <= length c)%nat -> growth_slope (older ++ c) = growth_slope c.
Proof.
  intros H. unfold growth_slope. rewrite length_app, lastn_app.
  replace (6 - length c)%nat with 0%nat by lia.
  replace (lastn 0 older) with (@nil Q)
    by (unfold lastn; rewrite Nat.sub_0_r, skipn_all; reflexivity).
  destruct (Nat.leb_spec 6 (length older + length c)); [|lia].
  destruct (Nat.leb_spec 6 (length c)); [reflexivity|lia].
Qed.

Lemma Forall2_skipn {A B} (R : A -> B -> Prop) n : forall l1 l2,
  Forall2 R l1 l2 -> Forall2 R (skipn n l1) (skipn n l2).
Proof.
  induction n as [|n IH]; intros l1 l2 H; [assumption|].
  destruct H; [constructor|]. cbn [skipn]. now apply IH.
Qed.

(** Two windows that differ by one constant have the same growth slope. *)
Lemma growth_slope_shifted c1 c2 offset :
  Forall2 (fun a b => a == b + offset) c1 c2 ->
  growth_slope c1 == growth_slope c2.
Proof.
  intros H. pose proof (Forall2_length H) as Hlen.
  unfold growth_slope. rewrite Hlen.
  destruct (Nat.leb_spec 6 (length c2)) as [H6|H6]; [|reflexivity].
  assert (HF : Forall2 (fun a b => a == b + offset) (lastn 6 c1) (lastn 6 c2)).
  { unfold lastn. rewrite Hlen. now apply Forall2_skipn. }
  destruct (length6 (lastn 6 c1)) as (a0 & a1 & a2 & a3 & a4 & a5 & E1);
    [rewrite lastn_length; lia|].
  destruct (length6 (lastn 6 c2)) as (b0 & b1 & b2 & b3 & b4 & b5 & E2);
    [rewrite lastn_length; lia|].
  rewrite E1, E2 in *.
  inversion HF as [|? ? ? ? H0 HF1]; subst; clear HF.
  inversion HF1 as [|? ? ? ? H1 HF2]; subst; clear HF1.
  inversion HF2 as [|? ? ? ? H2 HF3]; subst; clear HF2.
  inversion HF3 as [|? ? ? ? H3 HF4]; subst; clear HF3.
  inversion HF4 as [|? ? ? ? H4 HF5]; subst; clear HF4.
  inversion HF5 as [|? ? ? ? H5 _]; subst; clear HF5.
  unfold_fit. rewrite H0, H1, H2, H3, H4, H5. field.
Qed.

(** Running totals started from two values differ by the difference of the
    two. *)
Lemma cumsum_from_shifted l : forall acc acc' offset,
  acc - acc' == offset ->
  Forall2 (fun a b => a == b + offset) (cumsum_from acc l) (cumsum_from acc' l).
Proof.
  induction l as [|x l IH]; intros acc acc' K HK; [constructor|].
  cbn [cumsum_from]. constructor.
  - lra.
  - apply IH. lra.
Qed.

Lemma seed_cumulative_window model round r0 rest k v :
  Single.loop model round (County_encoded r0) (Date_max (Date r0) (map Date rest))
    k 1 (Single.seed r0 rest) = Completed v ->
  Single.cumulative_ev v
  = lastn 6 (cumsum (lastn 6 (map EV_Total (r0 :: rest))
                     ++ predictions
                          (Single.trace model round (County_encoded r0)
                             (Date_max (Date r0) (map Date rest)) k 1
                             (Single.seed r0 rest)))).
Proof.
  intros H.
  assert (Hne : Single.cumulative_ev (Single.seed r0 rest) <> []).
  { intros E. apply (f_equal (@length _)) in E.
    rewrite (proj2 (seed_length r0 rest)) in E. simpl in E. lia. }
  destruct (loop_windows model round _ _ k 1 _ v _ H (seed_trimmed r0 rest)
              (neg_index_last _ 0 Hne)) as [_ H2].
  rewrite H2. unfold cumsum. now rewrite cumsum_from_app.
Qed.

(** X5: the cumulative window is seeded from the running totals of the last
    6 historical values only (line 68), yet the growth slope handed to the
    model at every step is the growth slope of the running totals of the
    whole history followed by the predictions: the constant the window lacks
    does not change the slope. *)
Theorem growth_slope_as_from_whole_history :
  forall (model : Model) (round : Q -> Z) (r0 : Row) (rest : DataFrame)
         (k : nat) (v : Single.vars) (row : FeatureRow),
    Single.loop model round (County_encoded r0) (Date_max (Date r0) (map Date rest))
      k 1 (Single.seed r0 rest) = Completed v ->
    Single.engineer (County_encoded r0) (Single.months_since_start v + 1)%Z
      (Single.historical_ev v) (Single.cumulative_ev v) = Ok row ->
    let values := map EV_Total (r0 :: rest) in
    let preds :=
      predictions (Single.trace model round (County_encoded r0)
                     (Date_max (Date r0) (map Date rest)) k 1 (Single.seed r0 rest)) in
    row_ev_growth_slope row == growth_slope (cumsum (values ++ preds)).
Proof.
  intros model round r0 rest k v row Hl Er values preds.
  destruct (engineer_inv _ _ _ _ _ Er) as (l1 & l2 & l3 & _ & _ & _ & ->).
  cbn [row_ev_growth_slope].
  rewrite (seed_cumulative_window _ _ _ _ _ _ Hl). fold values preds.
  rewrite growth_slope_lastn.
  destruct (Nat.le_gt_cases (length values) 6) as [Hle|Hgt].
  - rewrite (lastn_all 6 values Hle). reflexivity.
  - assert (Hv : values = firstn (length values - 6) values ++ lastn 6 values)
      by (unfold lastn; now rewrite firstn_skipn).
    assert (Hsplit : values ++ preds
                     = firstn (length values - 6) values ++ (lastn 6 values ++ preds)).
    { rewrite app_assoc. f_equal. exact Hv. }
    rewrite Hsplit. unfold cumsum.
    rewrite (cumsum_from_app 0 (firstn (length values - 6) values)
               (lastn 6 values ++ preds)), growth_slope_app.
    + apply growth_slope_shifted
        with (offset := 0 - last (cumsum_from 0 (firstn (length values - 6) values)) 0).
      apply cumsum_from_shifted. reflexivity.
    + rewrite cumsum_from_length, length_app, lastn_length. lia.
Qed.

Lemma growth_slope_as_from_whole_history_witness :
  row_ev_growth_slope
    (mkFeatureRow 7 7 1 1 1 (3 # 3) (Finite (0 # 1)) (Finite (0 # 1)) (105 # 105))
  == growth_slope (cumsum (map EV_Total history7 ++ [])).
Proof.
  apply (growth_slope_as_from_whole_history (constant_model (Ok (Finite 4)))
           round_half_even (mkRow "A" (mkTimestamp 2024 1 31) 1 0 7) (tl history7)
           0 (Single.seed (mkRow "A" (mkTimestamp 2024 1 31) 1 0 7) (tl history7))).
  - reflexivity.
  - vm_compute. reflexivity.
Defined.
